(** * Web3ReactHooks: the gas estimator and the transaction-status monitor

    A shallow embedding of the two polling hooks of the repository,
    [useGasEstimator] (src/Hooks/useGasEstimator.tsx) and
    [useTransactionStatus], and the properties their specification states
    about them.

    Conventions of the embedding.
    - An ethers [BigNumber] is an integer of [Z]; block numbers and
      confirmation counts, which are JavaScript numbers holding integers,
      are [Z] as well.
    - A promise is represented by the way it settles ([settled]); the
      provider is a record of functions giving, for each request, how the
      promise it returns settles.
    - React state is a record; a state setter is a write to one field.
      Callbacks handed in by the caller ([onSuccess], [onError], ...) are
      recorded in a log of calls, in the order in which they are made.
    - [try]/[catch]/[finally] is a small state-and-exception monad in which
      the state written before a [throw] stays written. *)

From Stdlib Require Import ZArith List String Bool Lia Arith.
From Stdlib Require Import QArith Qminmax Lqa.
From Stdlib Require Import Sorting.Sorted Sorting.Permutation.
From Stdlib Require Import Relations.Relation_Operators.
Import ListNotations.

Local Open Scope string_scope.
Local Open Scope list_scope.
Local Open Scope Z_scope.

(** ** Promises and exceptions *)

(** How a promise settles: fulfilled with a value, or rejected with an
    error whose [message] is the string carried (the empty string stands
    for an error without a usable message). *)
Inductive settled (A : Type) : Type :=
| Fulfilled (value : A)
| Rejected (message : string).
Arguments Fulfilled {A} value.
Arguments Rejected {A} message.

(** [promise.catch(() => null)]: a rejection becomes the value [null]. *)
Definition catch_null {A : Type} (p : settled (option A)) : option A :=
  match p with
  | Fulfilled v => v
  | Rejected _ => None
  end.

(** The outcome of running a block of statements. *)
Inductive completion (A : Type) : Type :=
| Normal (result : A)
| Throw (message : string).
Arguments Normal {A} result.
Arguments Throw {A} message.

Module Exn.
Section Monad.
Context {W : Type}.

(** A computation over the world [W] that may throw. *)
Definition M (A : Type) : Type := W -> W * completion A.

Definition ret {A} (a : A) : M A := fun w => (w, Normal a).

Definition bind {A B} (m : M A) (k : A -> M B) : M B :=
  fun w =>
    match m w with
    | (w', Normal a) => k a w'
    | (w', Throw e) => (w', Throw e)
    end.

Definition throw {A} (e : string) : M A := fun w => (w, Throw e).

Definition modify (f : W -> W) : M unit := fun w => (f w, Normal tt).

(** [await p]: the value of a fulfilled promise, a throw for a rejected
    one. *)
Definition await {A} (p : settled A) : M A :=
  match p with
  | Fulfilled v => ret v
  | Rejected e => throw e
  end.

(** [try { body } catch (err) { handler(err.message) }]. *)
Definition try_catch {A} (body : M A) (handler : string -> M A) : M A :=
  fun w =>
    match body w with
    | (w', Normal a) => (w', Normal a)
    | (w', Throw e) => handler e w'
    end.

(** [try { body } finally { cleanup }]: [cleanup] runs on both exits and
    the completion of [body] is kept. *)
Definition try_finally {A} (body : M A) (cleanup : M unit) : M A :=
  fun w =>
    match body w with
    | (w', c) =>
        match cleanup w' with
        | (w'', Normal _) => (w'', c)
        | (w'', Throw e) => (w'', Throw e)
        end
    end.
End Monad.
End Exn.

Declare Scope exn_scope.
Delimit Scope exn_scope with exn.
Notation "x <- m ;; k" := (Exn.bind m (fun x => k))
  (at level 61, m at next level, right associativity) : exn_scope.
Notation "m ;;; k" := (Exn.bind m (fun _ => k))
  (at level 61, right associativity) : exn_scope.

(** ** ethers' BigNumber *)

Module BigNumber.
Definition t : Type := Z.

(** The largest number [BigNumber.from] takes as a JavaScript number. *)
Definition MAX_SAFE : Z := 9007199254740991.

(** [BigNumber.from(value)] for a JavaScript number holding an integer:
    numbers outside the safe range are refused with an overflow fault. *)
Definition from (value : Z) : completion t :=
  if (MAX_SAFE <=? value) || (value <=? - MAX_SAFE)
  then Throw "overflow"
  else Normal value.

Definition add (a b : t) : t := a + b.
Definition sub (a b : t) : t := a - b.
Definition mul (a b : t) : t := a * b.
(** Division truncates towards zero. *)
Definition div (a b : t) : t := Z.quot a b.
Definition isZero (a : t) : bool := a =? 0.
Definition isNegative (a : t) : bool := a <? 0.
End BigNumber.

(** ** Array.prototype.sort

  The array sort of the engine is modelled as the insertion sort engines
  run on short arrays: an element is placed in the sorted prefix in front
  of the first element that the comparison function puts after it, that
  is, the first [y] with [comparefn x y < 0]; only the sign of
  [comparefn] is looked at. *)

Section ArraySort.
Context {A : Type} (comparefn : A -> A -> Z).

Fixpoint insert (x : A) (sorted : list A) : list A :=
  match sorted with
  | [] => [x]
  | y :: rest =>
      if comparefn x y <? 0 then x :: y :: rest else y :: insert x rest
  end.

Definition sort (l : list A) : list A :=
  fold_left (fun prefix x => insert x prefix) l [].
End ArraySort.

(** ECMAScript leaves to the engine which calls of [comparefn] are made and
    in which order of arguments, and fixes the result only for a
    comparison function that is consistent, which one that never returns
    0 is not. [sort] above hands the new element first and asks whether
    the answer is negative. The insertion sort below follows the other
    convention: it hands the element already placed first and asks whether
    the answer is positive, so that the new element is put in front of the
    first [y] with [comparefn y x > 0]. *)

Section ArraySortEarlierFirst.
Context {A : Type} (comparefn : A -> A -> Z).

Fixpoint insertEarlierFirst (x : A) (sorted : list A) : list A :=
  match sorted with
  | [] => [x]
  | y :: rest =>
      if 0 <? comparefn y x then x :: y :: rest
      else y :: insertEarlierFirst x rest
  end.

Definition sortEarlierFirst (l : list A) : list A :=
  fold_left (fun prefix x => insertEarlierFirst x prefix) l [].
End ArraySortEarlierFirst.

(** What is asked of a sorted array of objects holding a BigNumber:
    [ascending] is the order by numeric value, and [holding v l] lists the
    elements of [l] whose value is [v], in the order they have in [l]; a
    sort is stable when it leaves every [holding v] as it was. *)
Definition ascending {A : Type} (value : A -> BigNumber.t) (a b : A) : Prop :=
  value a <= value b.

Definition holding {A : Type} (value : A -> BigNumber.t) (v : Z) (l : list A)
    : list A :=
  filter (fun a => value a =? v) l.

(** [array[i] || fallback] for an array of objects: every element is
    truthy, the fallback is taken when [i] is out of range. *)
Definition index_or {A : Type} (l : list A) (i : nat) (fallback : A) : A :=
  nth i l fallback.

(** ** The gas estimator: [useGasEstimator] *)

Module GasEstimator.

(** A block as the provider returns it; [baseFeePerGas] is absent on
    chains without a fee market. *)
Record Block : Type := mkBlock {
  number : Z;
  baseFeePerGas : option BigNumber.t
}.

Inductive BlockTag : Type :=
| Latest
| Number (n : Z).

(** A transaction payload is opaque to the hook. *)
Definition Transaction : Type := string.

(** The provider, as far as the hook uses it. [getBlock] can be fulfilled
    with [null] (no such block). *)
Record Provider : Type := mkProvider {
  getBlock : BlockTag -> settled (option Block);
  provider_estimateGas : Transaction -> settled BigNumber.t
}.

Record Confidence : Type := mkConfidence {
  low : BigNumber.t;
  medium : BigNumber.t;
  high : BigNumber.t
}.

Record HistoricalTrends : Type := mkTrends {
  average : BigNumber.t;
  median : BigNumber.t;
  percentile90 : BigNumber.t
}.

Record TimeEstimates : Type := mkTimes {
  likely : Z;
  fast : Z;
  urgent : Z
}.

Record GasEstimation : Type := mkEstimation {
  baseFee : BigNumber.t;
  maxFeePerGas : BigNumber.t;
  maxPriorityFeePerGas : BigNumber.t;
  gasLimit : BigNumber.t;
  estimatedCost : BigNumber.t;
  confidence : Confidence;
  historicalTrends : HistoricalTrends;
  timeEstimates : TimeEstimates
}.

(** The options of the hook. [onError] and [onSuccess] say whether the
    caller registered the callback. *)
Record GasEstimatorOptions : Type := mkOptions {
  provider : option Provider;
  refreshInterval : Z;
  historicalBlocks : nat;
  priorityFeeBump : Z;
  onError : bool;
  onSuccess : bool
}.

(** The four pieces of React state of the hook. *)
Record HookState : Type := mkState {
  loading : bool;
  error : option string;
  estimation : option GasEstimation;
  blockHistory : list Block
}.

(** [useState(true)], [useState(null)], [useState(null)], [useState([])]. *)
Definition initialState : HookState :=
  {| loading := true; error := None; estimation := None; blockHistory := [] |}.

(** A call of one of the caller's callbacks. *)
Inductive Call : Type :=
| OnSuccess (e : GasEstimation)
| OnError (message : string).

(** The world a cycle runs in: the React state and the log of callback
    calls made so far, oldest first. *)
Record World : Type := mkWorld {
  state : HookState;
  calls : list Call
}.

Definition M : Type -> Type := @Exn.M World.

Definition onState (f : HookState -> HookState) : M unit :=
  Exn.modify (fun w => {| state := f (state w); calls := calls w |}).

Definition setLoading (b : bool) : M unit :=
  onState (fun s => {| loading := b; error := error s;
                       estimation := estimation s;
                       blockHistory := blockHistory s |}).

Definition setError (e : option string) : M unit :=
  onState (fun s => {| loading := loading s; error := e;
                       estimation := estimation s;
                       blockHistory := blockHistory s |}).

Definition setEstimation (e : option GasEstimation) : M unit :=
  onState (fun s => {| loading := loading s; error := error s;
                       estimation := e;
                       blockHistory := blockHistory s |}).

Definition setBlockHistory (f : list Block -> list Block) : M unit :=
  onState (fun s => {| loading := loading s; error := error s;
                       estimation := estimation s;
                       blockHistory := f (blockHistory s) |}).

(** [callback?.(argument)]: the call is made when the callback is there. *)
Definition notify (registered : bool) (c : Call) : M unit :=
  if registered
  then Exn.modify (fun w => {| state := state w; calls := calls w ++ [c] |})
  else Exn.ret tt.

(** Lifting a library call that may throw. *)
Definition lift {A : Type} (c : completion A) : M A :=
  match c with
  | Normal a => Exn.ret a
  | Throw e => Exn.throw e
  end.

(** Reading a property of [currentBlock]: a TypeError when it is [null]. *)
Definition TypeError_null : string :=
  "Cannot read properties of null (reading 'baseFeePerGas')".

Definition deref (b : option Block) : M Block :=
  match b with
  | Some blk => Exn.ret blk
  | None => Exn.throw TypeError_null
  end.

(** [err.message || 'Failed to estimate gas']. *)
Definition message_or_default (message : string) : string :=
  if String.eqb message "" then "Failed to estimate gas" else message.

(** The requests of [Promise.all(Array.from({ length: historicalBlocks },
    (_, i) => provider.getBlock(latestBlockNumber - i).catch(() => null)))]. *)
Definition fetchHistorical (p : Provider) (latestBlockNumber : Z)
    (count : nat) : list (option Block) :=
  map (fun i => catch_null (getBlock p (Number (latestBlockNumber - Z.of_nat i))))
      (seq 0 count).

(** [historicalFees.filter(block => block && block.baseFeePerGas)]: a
    BigNumber is an object, hence truthy also when it is zero. *)
Fixpoint validBlocks (fetched : list (option Block)) : list Block :=
  match fetched with
  | [] => []
  | Some b :: rest =>
      match baseFeePerGas b with
      | Some _ => b :: validBlocks rest
      | None => validBlocks rest
      end
  | None :: rest => validBlocks rest
  end.

(** [validHistoricalBlocks.map(block => block.baseFeePerGas)
      .filter(fee => fee && !fee.isZero())]. *)
Fixpoint nonZeroFees (blocks : list Block) : list BigNumber.t :=
  match blocks with
  | [] => []
  | b :: rest =>
      match baseFeePerGas b with
      | Some fee =>
          if negb (BigNumber.isZero fee) then fee :: nonZeroFees rest
          else nonZeroFees rest
      | None => nonZeroFees rest
      end
  end.

(** [if (historicalBaseFees.length === 0) historicalBaseFees.push(baseFee)]. *)
Definition seedIfEmpty (fees : list BigNumber.t) (baseFee : BigNumber.t)
    : list BigNumber.t :=
  match fees with
  | [] => [baseFee]
  | _ :: _ => fees
  end.

(** The historical base-fee sample of a cycle. *)
Definition historicalBaseFees (valid : list Block) (baseFee : BigNumber.t)
    : list BigNumber.t :=
  seedIfEmpty (nonZeroFees valid) baseFee.

(** The comparison function handed to [sort], over any carrier whose
    elements hold a BigNumber: [(a, b) => a.sub(b).isNegative() ? -1 : 1]. *)
Definition compareFees {A : Type} (value : A -> BigNumber.t) (a b : A) : Z :=
  if BigNumber.isNegative (BigNumber.sub (value a) (value b)) then -1 else 1.

(** [[...historicalBaseFees].sort(...)]. *)
Definition sortedFees (fees : list BigNumber.t) : list BigNumber.t :=
  sort (compareFees (fun fee => fee)) fees.

(** [Math.floor(n / 2)]. *)
Definition half (n : nat) : nat := Nat.div n 2.

(** [Math.floor(n * 0.9)]. The double nearest to 0.9 lies just above 0.9,
    and a product [n * 0.9] that is not a whole number is at least a tenth
    away from one, so for every array length the floor is that of
    [9 n / 10]. *)
Definition ninth_tenth (n : nat) : nat := Nat.div (n * 9) 10.

Definition confidenceOf (sorted : list BigNumber.t) (baseFee : BigNumber.t)
    : Confidence :=
  {| low := index_or sorted 0 baseFee;
     medium := index_or sorted (half (List.length sorted)) baseFee;
     high := index_or sorted (List.length sorted - 1) baseFee |}.

Definition sum (fees : list BigNumber.t) : BigNumber.t :=
  fold_left (fun acc fee => BigNumber.add acc fee) fees 0.

Definition averageOf (fees : list BigNumber.t) (baseFee : BigNumber.t)
    : BigNumber.t :=
  if (0 <? List.length fees)%nat
  then BigNumber.div (sum fees) (Z.of_nat (List.length fees))
  else baseFee.

Definition trendsOf (fees sorted : list BigNumber.t) (baseFee : BigNumber.t)
    : HistoricalTrends :=
  {| average := averageOf fees baseFee;
     median := index_or sorted (half (List.length sorted)) baseFee;
     percentile90 := index_or sorted (ninth_tenth (List.length sorted)) baseFee |}.

Definition defaultGasLimit : BigNumber.t := 21000.

(** The inner [try]: [transaction ? await provider.estimateGas(transaction)
    : BigNumber.from(21000)], with 21000 again when that throws. *)
Definition resolveGasLimit (p : Provider) (transaction : option Transaction)
    : M BigNumber.t :=
  Exn.try_catch
    (match transaction with
     | Some tx => Exn.await (provider_estimateGas p tx)
     | None => Exn.ret defaultGasLimit
     end)
    (fun _ => Exn.ret defaultGasLimit).

(** The object literal [estimationResult]. *)
Definition estimationResult (baseFee maxFeePerGas maxPriorityFeePerGas
    gasLimit : BigNumber.t) (fees : list BigNumber.t) : GasEstimation :=
  let sorted := sortedFees fees in
  {| baseFee := baseFee;
     maxFeePerGas := maxFeePerGas;
     maxPriorityFeePerGas := maxPriorityFeePerGas;
     gasLimit := gasLimit;
     estimatedCost := BigNumber.mul maxFeePerGas gasLimit;
     confidence := confidenceOf sorted baseFee;
     historicalTrends := trendsOf fees sorted baseFee;
     timeEstimates := {| likely := 15; fast := 30; urgent := 60 |} |}.

(** [currentBlock.baseFeePerGas || BigNumber.from(0)]. *)
Definition baseFeeOrZero (b : Block) : BigNumber.t :=
  match baseFeePerGas b with
  | Some fee => fee
  | None => 0
  end.

Local Open Scope exn_scope.

(** The body of the outer [try] after [setLoading(true)]. *)
Definition cycle (o : GasEstimatorOptions) (p : Provider)
    (transaction : option Transaction) : M unit :=
  currentBlock <- Exn.await (getBlock p Latest) ;;
  currentBlock <- deref currentBlock ;;
  let baseFee := baseFeeOrZero currentBlock in
  let latestBlockNumber := number currentBlock in
  let historicalFees :=
    fetchHistorical p latestBlockNumber (historicalBlocks o) in
  let validHistoricalBlocks := validBlocks historicalFees in
  setBlockHistory (fun prev => firstn 100 (validHistoricalBlocks ++ prev)) ;;;
  bump <- lift (BigNumber.from (priorityFeeBump o)) ;;
  let maxPriorityFeePerGas := BigNumber.mul bump 1000000000 in
  let maxFeePerGas :=
    BigNumber.add (BigNumber.mul baseFee 2) maxPriorityFeePerGas in
  gasLimit <- resolveGasLimit p transaction ;;
  let fees := historicalBaseFees validHistoricalBlocks baseFee in
  let result :=
    estimationResult baseFee maxFeePerGas maxPriorityFeePerGas gasLimit fees in
  setEstimation (Some result) ;;;
  setError None ;;;
  notify (onSuccess o) (OnSuccess result).

(** The [catch] clause of the outer [try]. *)
Definition onFailure (o : GasEstimatorOptions) (message : string) : M unit :=
  let error := message_or_default message in
  setError (Some error) ;;;
  notify (onError o) (OnError error).

(** [estimateGas(transaction?)]. *)
Definition estimateGas (o : GasEstimatorOptions)
    (transaction : option Transaction) : M unit :=
  match provider o with
  | None =>
      setError (Some "Provider not available") ;;;
      setLoading false
  | Some p =>
      Exn.try_finally
        (Exn.try_catch
           (setLoading true ;;; cycle o p transaction)
           (onFailure o))
        (setLoading false)
  end.

(** The state and the log a call of [estimateGas] leaves behind. *)
Definition after (o : GasEstimatorOptions) (transaction : option Transaction)
    (w : World) : World :=
  fst (estimateGas o transaction w).

(** The world in which the body of the outer [try] runs, [setLoading(true)]
    done. *)
Definition started (w : World) : World := fst (setLoading true w).

(** *** Calls in flight

    A call of [estimateGas] runs its first statements at once, up to the
    first [await], and the rest when the awaited promises have settled; a
    call made by the caller can begin while a call of the timer is
    suspended. As far as the [loading] flag goes a call has two moments:
    it begins ([begin]) and it completes ([resume]); the flag is written
    nowhere in between. *)

(** The statements of [estimateGas] run at the call. *)
Definition begin (o : GasEstimatorOptions) : M unit :=
  match provider o with
  | None =>
      setError (Some "Provider not available") ;;;
      setLoading false
  | Some _ => setLoading true
  end.

(** The rest of a call that found a provider. *)
Definition resume (o : GasEstimatorOptions) (p : Provider)
    (transaction : option Transaction) : M unit :=
  Exn.try_finally
    (Exn.try_catch (cycle o p transaction) (onFailure o))
    (setLoading false).

(** The hook together with the number of calls that have begun and the
    number of those still suspended. *)
Record Engine : Type := mkEngine {
  world : World;
  begun : nat;
  in_flight : nat
}.

(** The hook as it is mounted. *)
Definition mounted : Engine :=
  {| world := {| state := initialState; calls := [] |};
     begun := 0;
     in_flight := 0 |}.

Inductive step : Engine -> Engine -> Prop :=
| call_without_provider (o : GasEstimatorOptions) (e : Engine) :
    provider o = None ->
    step e {| world := fst (begin o (world e));
              begun := S (begun e);
              in_flight := in_flight e |}
| call_begins (o : GasEstimatorOptions) (p : Provider) (e : Engine) :
    provider o = Some p ->
    step e {| world := fst (begin o (world e));
              begun := S (begun e);
              in_flight := S (in_flight e) |}
| call_completes (o : GasEstimatorOptions) (p : Provider)
    (transaction : option Transaction) (e : Engine) :
    (0 < in_flight e)%nat ->
    step e {| world := fst (resume o p transaction (world e));
              begun := begun e;
              in_flight := pred (in_flight e) |}.

Inductive reachable : Engine -> Prop :=
| reachable_mounted : reachable mounted
| reachable_step (e e' : Engine) : reachable e -> step e e' -> reachable e'.

(** *** What the specification says of a cycle

    The definitions below follow the words of the specification; the
    properties compare them with [estimateGas]. *)

(** What one historical fetch gives to the sample: the base fee of the
    block when the fetch returned a block carrying a base fee other than
    zero, no data otherwise, and no data in particular when it failed. *)
Definition contribution (fetch : settled (option Block)) : list BigNumber.t :=
  match fetch with
  | Fulfilled (Some b) =>
      match baseFeePerGas b with
      | Some fee => if fee =? 0 then [] else [fee]
      | None => []
      end
  | Fulfilled None => []
  | Rejected _ => []
  end.

(** The sample drawn from the fetches of the [count] blocks that end at
    [latestBlockNumber]. *)
Definition sampleOfFetches (p : Provider) (latestBlockNumber : Z)
    (count : nat) : list BigNumber.t :=
  flat_map
    (fun i => contribution (getBlock p (Number (latestBlockNumber - Z.of_nat i))))
    (seq 0 count).

(** The provider [p] when its fetches of the blocks numbered in [failed]
    fail; the fetch of the latest block and the simulation are left as
    they are. *)
Definition failing (failed : Z -> bool) (p : Provider) : Provider :=
  {| getBlock := fun tag =>
       match tag with
       | Latest => getBlock p Latest
       | Number n =>
           if failed n then Rejected "fetch failed" else getBlock p (Number n)
       end;
     provider_estimateGas := provider_estimateGas p |}.

(** The sample when the fetches in [failed] give no data and the others
    give what [p] answers. *)
Definition sampleOfSurvivors (failed : Z -> bool) (p : Provider)
    (latestBlockNumber : Z) (count : nat) : list BigNumber.t :=
  flat_map
    (fun i =>
       let n := latestBlockNumber - Z.of_nat i in
       if failed n then [] else contribution (getBlock p (Number n)))
    (seq 0 count).

(** The gas limit: the simulated cost of the transaction supplied, 21000
    without a transaction or when the simulation fails. *)
Definition gasLimitOf (p : Provider) (transaction : option Transaction)
    : BigNumber.t :=
  match transaction with
  | Some tx =>
      match provider_estimateGas p tx with
      | Fulfilled g => g
      | Rejected _ => 21000
      end
  | None => 21000
  end.

(** A historical fetch that brings no base fee other than zero. *)
Definition withoutFee (fetched : option Block) : Prop :=
  match fetched with
  | None => True
  | Some b => baseFeePerGas b = None \/ baseFeePerGas b = Some 0
  end.

(** *** Callbacks that throw

    [notify] enters a call of a callback in the log. A callback may also
    throw. The two calls are the last statements of the [try] block and of
    the [catch] clause, so that a throwing callback is its entry in the
    log followed by the throw: out of [onSuccess] into the [catch] clause,
    out of [onError] past it, through [finally], to the caller. *)

(** What a callback does when it is called: it returns, or it throws an
    error with a message. *)
Inductive Behaviour : Type :=
| Returns
| Throws (message : string).

Record Callbacks : Type := mkCallbacks {
  onSuccessDoes : Behaviour;
  onErrorDoes : Behaviour
}.

(** The completion of a call of a callback, none being made without the
    callback. *)
Definition completes (registered : bool) (does : Behaviour) : M unit :=
  if registered
  then match does with
       | Returns => Exn.ret tt
       | Throws message => Exn.throw message
       end
  else Exn.ret tt.

(** [estimateGas(transaction?)] with callbacks that do as [callbacks]
    says. *)
Definition estimateGasWith (callbacks : Callbacks) (o : GasEstimatorOptions)
    (transaction : option Transaction) : M unit :=
  match provider o with
  | None =>
      setError (Some "Provider not available") ;;;
      setLoading false
  | Some p =>
      Exn.try_finally
        (Exn.try_catch
           (setLoading true ;;;
            cycle o p transaction ;;;
            completes (onSuccess o) (onSuccessDoes callbacks))
           (fun message =>
              onFailure o message ;;;
              completes (onError o) (onErrorDoes callbacks)))
        (setLoading false)
  end.

Definition afterWith (callbacks : Callbacks) (o : GasEstimatorOptions)
    (transaction : option Transaction) (w : World) : World :=
  fst (estimateGasWith callbacks o transaction w).

(** A call of [estimateGas] begun on [e] and completed before another
    begins. *)
Definition callCompleted (o : GasEstimatorOptions) (p : Provider)
    (transaction : option Transaction) (e : Engine) : Engine :=
  {| world := fst (resume o p transaction (fst (begin o (world e))));
     begun := S (begun e);
     in_flight := pred (S (in_flight e)) |}.

(** *** Sample runs *)

(** A chain whose blocks all carry the base fee [fee] and on which no
    request fails. *)
Definition steadyProvider (fee : BigNumber.t) : Provider :=
  {| getBlock := fun tag =>
       match tag with
       | Latest => Fulfilled (Some {| number := 100; baseFeePerGas := Some fee |})
       | Number n => Fulfilled (Some {| number := n; baseFeePerGas := Some fee |})
       end;
     provider_estimateGas := fun _ => Fulfilled 21000 |}.

(** The same chain when every fetch of a block by number fails. *)
Definition flakyProvider (fee : BigNumber.t) : Provider :=
  {| getBlock := fun tag =>
       match tag with
       | Latest => Fulfilled (Some {| number := 100; baseFeePerGas := Some fee |})
       | Number n => Rejected "timeout"
       end;
     provider_estimateGas := fun _ => Rejected "cannot estimate gas" |}.

(** A provider that is down. *)
Definition deadProvider : Provider :=
  {| getBlock := fun _ => Rejected "network error";
     provider_estimateGas := fun _ => Rejected "network error" |}.

Definition optionsWith (p : Provider) : GasEstimatorOptions :=
  {| provider := Some p; refreshInterval := 15000; historicalBlocks := 20;
     priorityFeeBump := 10; onError := true; onSuccess := true |}.

Definition freshWorld : World :=
  {| state := initialState; calls := [] |}.

(** The world after a first, successful cycle on the steady chain. *)
Definition settledWorld : World :=
  after (optionsWith (steadyProvider 1000000000)) None freshWorld.

Inductive Tagged : Type :=
| tagged (fee : BigNumber.t) (tag : string).

Definition feeOf (x : Tagged) : BigNumber.t :=
  match x with tagged fee _ => fee end.

End GasEstimator.

(** ** The transaction monitor: [useTransactionStatus] *)

Module TransactionStatus.

(** The values of [status]. *)
Inductive Status : Type :=
| Pending
| Confirming
| Confirmed
| Failed
| NotFound
| Error.

Definition Status_eqb (a b : Status) : bool :=
  match a, b with
  | Pending, Pending | Confirming, Confirming | Confirmed, Confirmed
  | Failed, Failed | NotFound, NotFound | Error, Error => true
  | _, _ => false
  end.

(** A transaction as returned by [getTransaction] is opaque to the hook. *)
Definition Transaction : Type := string.

Record Receipt : Type := mkReceipt {
  receipt_status : Z;
  blockNumber : Z;
  receipt_gasUsed : BigNumber.t;
  receipt_effectiveGasPrice : BigNumber.t
}.

Record FeeData : Type := mkFeeData {
  fee_maxFeePerGas : option BigNumber.t
}.

(** The two places from which [getFeeData] is called in a poll. *)
Inductive FeeRequest : Type :=
| ForRecommendations
| ForCongestion.

(** The provider during one poll. [send_pending] is the answer to
    [send('eth_getBlockByNumber', ['pending', false])]: the hashes in
    [transactions], or [null]. [now] is [Date.now()]. *)
Record Provider : Type := mkProvider {
  getTransaction : string -> settled (option Transaction);
  getTransactionReceipt : string -> settled (option Receipt);
  getBlockNumber : settled Z;
  getFeeData : FeeRequest -> settled FeeData;
  send_pending : settled (option (list string));
  now : Z
}.

(** [ethers.utils.formatUnits(wei, 'gwei')]: the decimal it prints, as the
    exact rational it denotes. *)
Definition formatUnits_gwei (wei : BigNumber.t) : Q := Qmake wei 1000000000.

Record GasPriceRecommendations : Type := mkRecommendations {
  slow : Q;
  standard : Q;
  fast : Q
}.

Record HistoryEntry : Type := mkEntry {
  entry_status : Status;
  timestamp : Z
}.

(** [gasUsed] and [effectiveGasPrice] hold the decimal rendering of a
    BigNumber, kept here as the number rendered. *)
Record TransactionInfo : Type := mkInfo {
  status : Status;
  confirmations : Z;
  gasUsed : option BigNumber.t;
  effectiveGasPrice : option BigNumber.t;
  error : option string;
  history : list HistoryEntry;
  mempoolPosition : option Z;
  gasPriceRecommendations : option GasPriceRecommendations
}.

Record TransactionStatusOptions : Type := mkOptions {
  initialPollingInterval : Q;
  requiredConfirmations : Z;
  onStatusChange : bool;
  onConfirmation : bool;
  onError : bool
}.

Inductive Call : Type :=
| OnStatusChange (currentStatus prevStatus : Status)
| OnConfirmation (info : TransactionInfo)
| OnError (message : string).

(** The state of the hook, the ref [prevStatusRef] and the log of the
    callback calls made so far, oldest first. *)
Record World : Type := mkWorld {
  transactionInfo : TransactionInfo;
  pollingInterval : Q;
  prevStatusRef : Status;
  calls : list Call
}.

Definition initialInfo : TransactionInfo :=
  {| status := Pending; confirmations := 0; gasUsed := None;
     effectiveGasPrice := None; error := None; history := [];
     mempoolPosition := None; gasPriceRecommendations := None |}.

Definition mounted (o : TransactionStatusOptions) : World :=
  {| transactionInfo := initialInfo;
     pollingInterval := initialPollingInterval o;
     prevStatusRef := Pending;
     calls := [] |}.

Definition M : Type -> Type := @Exn.M World.

Definition setTransactionInfo (f : TransactionInfo -> TransactionInfo)
    : M unit :=
  Exn.modify (fun w => {| transactionInfo := f (transactionInfo w);
                          pollingInterval := pollingInterval w;
                          prevStatusRef := prevStatusRef w;
                          calls := calls w |}).

Definition setPollingInterval (f : Q -> Q) : M unit :=
  Exn.modify (fun w => {| transactionInfo := transactionInfo w;
                          pollingInterval := f (pollingInterval w);
                          prevStatusRef := prevStatusRef w;
                          calls := calls w |}).

Inductive Congestion : Type :=
| High
| NormalLoad
| Unknown.

(** [getNetworkCongestion]. The decimal printed by [formatUnits] has at
    most nine digits after the point, so [parseFloat] of it exceeds 100
    exactly when the decimal does. *)
Definition getNetworkCongestion (p : Provider) : Congestion :=
  match getFeeData p ForCongestion with
  | Fulfilled feeData =>
      let maxFeePerGas :=
        match fee_maxFeePerGas feeData with
        | Some fee => formatUnits_gwei fee
        | None => 0%Q
        end in
      if Qle_bool maxFeePerGas 100 then NormalLoad else High
  | Rejected _ => Unknown
  end.

(** [getGasPriceRecommendations]. *)
Definition getGasPriceRecommendations (p : Provider)
    : option GasPriceRecommendations :=
  match getFeeData p ForRecommendations with
  | Fulfilled feeData =>
      Some
        match fee_maxFeePerGas feeData with
        | Some fee =>
            {| slow := formatUnits_gwei
                         (BigNumber.div (BigNumber.mul fee 80) 100);
               standard := formatUnits_gwei fee;
               fast := formatUnits_gwei
                         (BigNumber.div (BigNumber.mul fee 120) 100) |}
        | None => {| slow := 0%Q; standard := 0%Q; fast := 0%Q |}
        end
  | Rejected _ => None
  end.

(** [array.indexOf(x)], [-1] when [x] does not occur. *)
Fixpoint indexOf (l : list string) (x : string) : Z :=
  match l with
  | [] => -1
  | y :: rest =>
      if String.eqb y x then 0
      else let i := indexOf rest x in if i =? -1 then -1 else i + 1
  end.

(** [getMempoolPosition]. *)
Definition getMempoolPosition (p : Provider) (txHash : string) : option Z :=
  match send_pending p with
  | Fulfilled (Some transactions) =>
      let position := indexOf transactions txHash in
      if position =? -1 then None else Some (position + 1)
  | Fulfilled None => None
  | Rejected _ => None
  end.

(** The status a receipt gives. *)
Definition newStatus (o : TransactionStatusOptions) (receipt : Receipt)
    (confirmations : Z) : Status :=
  if receipt_status receipt =? 1
  then (if requiredConfirmations o <=? confirmations
        then Confirmed else Confirming)
  else Failed.

Definition withEntry (prev : TransactionInfo) (s : Status) (time : Z)
    : list HistoryEntry :=
  history prev ++ [{| entry_status := s; timestamp := time |}].

Local Open Scope exn_scope.

(** The body of the [try] of [getTransactionStatus]. *)
Definition pollBody (o : TransactionStatusOptions) (p : Provider)
    (txHash : string) : M unit :=
  tx <- Exn.await (getTransaction p txHash) ;;
  match tx with
  | None =>
      setTransactionInfo (fun prev =>
        {| status := NotFound;
           confirmations := confirmations prev;
           gasUsed := gasUsed prev;
           effectiveGasPrice := effectiveGasPrice prev;
           error := Some "Transaction not found";
           history := withEntry prev NotFound (now p);
           mempoolPosition := mempoolPosition prev;
           gasPriceRecommendations := gasPriceRecommendations prev |})
  | Some _ =>
      receipt <- Exn.await (getTransactionReceipt p txHash) ;;
      match receipt with
      | Some receipt =>
          currentBlock <- Exn.await (getBlockNumber p) ;;
          let confirmations := currentBlock - blockNumber receipt + 1 in
          let newStatus := newStatus o receipt confirmations in
          setTransactionInfo (fun prev =>
            {| status := newStatus;
               confirmations := confirmations;
               gasUsed := Some (receipt_gasUsed receipt);
               effectiveGasPrice := Some (receipt_effectiveGasPrice receipt);
               error := None;
               history := withEntry prev newStatus (now p);
               mempoolPosition := None;
               gasPriceRecommendations := gasPriceRecommendations prev |})
      | None =>
          let mempoolPosition := getMempoolPosition p txHash in
          let gasPriceRecommendations := getGasPriceRecommendations p in
          setTransactionInfo (fun prev =>
            {| status := Pending;
               confirmations := confirmations prev;
               gasUsed := gasUsed prev;
               effectiveGasPrice := effectiveGasPrice prev;
               error := error prev;
               history := withEntry prev Pending (now p);
               mempoolPosition := mempoolPosition;
               gasPriceRecommendations := gasPriceRecommendations |})
      end ;;;
      let congestion := getNetworkCongestion p in
      setPollingInterval (fun prevInterval =>
        match congestion with
        | High => Qmin (prevInterval * (3 # 2)) 30000
        | _ => initialPollingInterval o
        end)
  end.

(** The [catch] clause of [getTransactionStatus]. *)
Definition pollFailed (p : Provider) (message : string) : M unit :=
  setTransactionInfo (fun prev =>
    {| status := Error;
       confirmations := confirmations prev;
       gasUsed := gasUsed prev;
       effectiveGasPrice := effectiveGasPrice prev;
       error := Some message;
       history := withEntry prev Error (now p);
       mempoolPosition := mempoolPosition prev;
       gasPriceRecommendations := gasPriceRecommendations prev |}).

(** [getTransactionStatus]: nothing happens without a provider or a hash. *)
Definition getTransactionStatus (o : TransactionStatusOptions)
    (provider : option Provider) (txHash : string) : M unit :=
  match provider with
  | None => Exn.ret tt
  | Some p =>
      if String.eqb txHash "" then Exn.ret tt
      else Exn.try_catch (pollBody o p txHash) (pollFailed p)
  end.

(** Appending a call to the log when the callback is registered. *)
Definition notify (registered : bool) (c : Call) (w : World) : World :=
  if registered
  then {| transactionInfo := transactionInfo w;
          pollingInterval := pollingInterval w;
          prevStatusRef := prevStatusRef w;
          calls := calls w ++ [c] |}
  else w.

Definition setPrevStatusRef (s : Status) (w : World) : World :=
  {| transactionInfo := transactionInfo w;
     pollingInterval := pollingInterval w;
     prevStatusRef := s;
     calls := calls w |}.

(** The effect that depends on [transactionInfo]: it runs after every
    render in which [transactionInfo] is a new object. [onError] is called
    when [transactionInfo.error] is truthy, a string that is not empty. *)
Definition reconcile (o : TransactionStatusOptions) (w : World) : World :=
  let info := transactionInfo w in
  let currentStatus := status info in
  let w1 :=
    if negb (Status_eqb currentStatus (prevStatusRef w))
    then setPrevStatusRef currentStatus
           (notify (onStatusChange o)
                   (OnStatusChange currentStatus (prevStatusRef w)) w)
    else w in
  let w2 :=
    if Status_eqb currentStatus Confirmed && onConfirmation o
    then notify true (OnConfirmation info) w1
    else w1 in
  if Status_eqb currentStatus Error && onError o
  then match error info with
       | Some message =>
           if negb (String.eqb message "")
           then notify true (OnError message) w2
           else w2
       | None => w2
       end
  else w2.

(** One poll: [getTransactionStatus], and the effect after the render its
    [setTransactionInfo] causes. A call that returns at once writes no
    state, so nothing is rendered and no effect runs. *)
Definition poll (o : TransactionStatusOptions) (provider : option Provider)
    (txHash : string) (w : World) : World :=
  match provider with
  | None => w
  | Some _ =>
      if String.eqb txHash "" then w
      else reconcile o (fst (getTransactionStatus o provider txHash w))
  end.

(** The polls of a monitor, the provider's answers given poll by poll. *)
Definition polls (o : TransactionStatusOptions) (txHash : string)
    (answers : list Provider) (w : World) : World :=
  fold_left (fun w p => poll o (Some p) txHash w) answers w.

(** The effect lists the three callbacks among its dependencies, so it
    runs again, on the same [transactionInfo], after every render in which
    one of them is a new function: with callbacks written inline by the
    caller that is every render, the one [setPollingInterval] causes
    when the interval changes among them. [effectRuns o n] is [n] such
    further runs. *)
Fixpoint effectRuns (o : TransactionStatusOptions) (n : nat) (w : World)
    : World :=
  match n with
  | O => w
  | S k => effectRuns o k (reconcile o w)
  end.

(** One poll and the renders that follow it before the next poll, [renders]
    of which run the effect again. *)
Definition pollRendered (o : TransactionStatusOptions)
    (provider : option Provider) (txHash : string) (renders : nat)
    (w : World) : World :=
  effectRuns o renders (poll o provider txHash w).

(** The number of calls of [onConfirmation] in a log. *)
Fixpoint confirmationCalls (log : list Call) : nat :=
  match log with
  | [] => 0
  | OnConfirmation _ :: rest => S (confirmationCalls rest)
  | _ :: rest => confirmationCalls rest
  end.

(** The states a monitor of [txHash] goes through, whatever the provider
    answers poll after poll. *)
Inductive reachable (o : TransactionStatusOptions) (txHash : string)
    : World -> Prop :=
| reachable_mounted : reachable o txHash (mounted o)
| reachable_poll (w : World) (provider : option Provider) :
    reachable o txHash w ->
    reachable o txHash (poll o provider txHash w).

(** The statuses a receipt gives. *)
Definition mined (s : Status) : Prop :=
  s = Confirming \/ s = Confirmed \/ s = Failed.

(** *** Sample runs *)

Definition defaults : TransactionStatusOptions :=
  {| initialPollingInterval := 5000; requiredConfirmations := 1;
     onStatusChange := true; onConfirmation := true; onError := true |}.

(** Two confirmations are asked for. *)
Definition cautious : TransactionStatusOptions :=
  {| initialPollingInterval := 5000; requiredConfirmations := 2;
     onStatusChange := true; onConfirmation := true; onError := true |}.

(** The transaction is mined in block 10 with the given receipt status,
    the chain is at block [head], and the fee is [fee] wei. *)
Definition minedProvider (receiptStatus head fee : Z) : Provider :=
  {| getTransaction := fun _ => Fulfilled (Some "tx");
     getTransactionReceipt := fun _ =>
       Fulfilled (Some {| receipt_status := receiptStatus; blockNumber := 10;
                          receipt_gasUsed := 21000;
                          receipt_effectiveGasPrice := 1000000000 |});
     getBlockNumber := Fulfilled head;
     getFeeData := fun _ => Fulfilled {| fee_maxFeePerGas := Some fee |};
     send_pending := Fulfilled (Some []);
     now := 0 |}.

(** The transaction waits in the mempool, second in line. *)
Definition waitingProvider : Provider :=
  {| getTransaction := fun _ => Fulfilled (Some "tx");
     getTransactionReceipt := fun _ => Fulfilled None;
     getBlockNumber := Fulfilled 10;
     getFeeData := fun _ => Fulfilled {| fee_maxFeePerGas := Some 50000000000 |};
     send_pending := Fulfilled (Some ["0xabc"; "0xdef"]);
     now := 0 |}.

(** The provider cannot be reached. *)
Definition downProvider : Provider :=
  {| getTransaction := fun _ => Rejected "network error";
     getTransactionReceipt := fun _ => Rejected "network error";
     getBlockNumber := Rejected "network error";
     getFeeData := fun _ => Rejected "network error";
     send_pending := Rejected "network error";
     now := 0 |}.

(** The calls of [onStatusChange] in a log, as pairs of the new and the
    previous status, and the messages handed to [onError]. *)
Fixpoint statusChangeCalls (log : list Call) : list (Status * Status) :=
  match log with
  | [] => []
  | OnStatusChange current previous :: rest =>
      (current, previous) :: statusChangeCalls rest
  | _ :: rest => statusChangeCalls rest
  end.

Fixpoint errorCalls (log : list Call) : list string :=
  match log with
  | [] => []
  | OnError message :: rest => message :: errorCalls rest
  | _ :: rest => errorCalls rest
  end.

(** The transaction is not known to the provider. *)
Definition unawareProvider : Provider :=
  {| getTransaction := fun _ => Fulfilled None;
     getTransactionReceipt := fun _ => Fulfilled None;
     getBlockNumber := Fulfilled 10;
     getFeeData := fun _ => Fulfilled {| fee_maxFeePerGas := None |};
     send_pending := Fulfilled (Some []);
     now := 0 |}.

End TransactionStatus.

(** ** The wallet: [useWalletMultiChain] (useWalletMultiChain.tsx) *)

Module WalletMultiChain.

(** [new ethers.providers.Web3Provider(window.ethereum)]: every provider
    the hook builds wraps the one injected wallet. *)
Inductive Web3Provider : Type :=
| windowEthereum.

(** [formatEther] prints a decimal, kept as the rational it denotes. *)
Definition formatEther (wei : BigNumber.t) : Q :=
  Qmake wei 1000000000000000000.

Record WalletState : Type := mkWalletState {
  provider : option Web3Provider;
  network : option Z;
  walletAddress : option string;
  balance : option Q
}.

(** The injected wallet as the hook sees it during one call:
    [hasEthereum], the chain of [getNetwork()], the outcome of
    [send('eth_requestAccounts', [])], the address of the signer and the
    balances. *)
Record Ethereum : Type := mkEthereum {
  hasEthereum : bool;
  getNetwork : settled Z;
  requestAccounts : settled unit;
  getAddress : settled string;
  getBalance : string -> settled BigNumber.t
}.

Definition disconnected : WalletState :=
  {| provider := None; network := None; walletAddress := None;
     balance := None |}.

Definition M : Type -> Type := @Exn.M WalletState.

(** [resetState]. *)
Definition resetState : M unit := Exn.modify (fun _ => disconnected).

(** [getProvider]: a provider is built and stored when none is there; the
    value returned is the one the state held at the call. *)
Definition getProvider (ethereum : Ethereum) : M (option Web3Provider) :=
  fun s =>
    match provider s with
    | None =>
        if hasEthereum ethereum
        then ({| provider := Some windowEthereum; network := network s;
                 walletAddress := walletAddress s; balance := balance s |},
              Normal None)
        else (s, Normal None)
    | Some p => (s, Normal (Some p))
    end.

Local Open Scope exn_scope.

(** [updateBalance(provider, address)]: nothing for an empty address. *)
Definition updateBalance (ethereum : Ethereum) (address : string) : M unit :=
  if String.eqb address "" then Exn.ret tt
  else
    balanceInWei <- Exn.await (getBalance ethereum address) ;;
    Exn.modify (fun prev =>
      {| provider := provider prev; network := network prev;
         walletAddress := walletAddress prev;
         balance := Some (formatEther balanceInWei) |}).

(** [supportedChains.includes(chainId)]. *)
Definition includes (chains : list Z) (chainId : Z) : bool :=
  existsb (Z.eqb chainId) chains.

(** [connectWallet]. *)
Definition connectWallet (supportedChains : list Z) (ethereum : Ethereum)
    : M unit :=
  if negb (hasEthereum ethereum)
  then Exn.throw "Please install MetaMask or another Web3 wallet."
  else
    Exn.try_catch
      (existing <- getProvider ethereum ;;
       let provider :=
         match existing with
         | Some p => p
         | None => windowEthereum
         end in
       chainId <- Exn.await (getNetwork ethereum) ;;
       (if negb (includes supportedChains chainId)
        then Exn.throw "Unsupported chain. Please switch your network."
        else Exn.ret tt) ;;;
       Exn.await (requestAccounts ethereum) ;;;
       address <- Exn.await (getAddress ethereum) ;;
       Exn.modify (fun _ =>
         {| provider := Some provider; network := Some chainId;
            walletAddress := Some address; balance := None |}) ;;;
       updateBalance ethereum address)
      (fun message => resetState ;;; Exn.throw message).

(** [disconnectWallet]. *)
Definition disconnectWallet : M unit := resetState.

(** The function throttled into [handleAccountsChanged]. *)
Definition handleAccountsChanged (accounts : list string) : M unit :=
  match accounts with
  | first :: _ =>
      Exn.modify (fun prev =>
        {| provider := provider prev; network := network prev;
           walletAddress := Some first; balance := balance prev |})
  | [] => disconnectWallet
  end.

(** *** Sample runs *)

(** A wallet on chain 1 holding one ether. *)
Definition mainnetWallet : Ethereum :=
  {| hasEthereum := true;
     getNetwork := Fulfilled 1;
     requestAccounts := Fulfilled tt;
     getAddress := Fulfilled "0xA11CE";
     getBalance := fun _ => Fulfilled 1000000000000000000 |}.

(** The same wallet when the user turns the connection down. *)
Definition refusingWallet : Ethereum :=
  {| hasEthereum := true;
     getNetwork := Fulfilled 1;
     requestAccounts := Rejected "User rejected the request.";
     getAddress := Fulfilled "0xA11CE";
     getBalance := fun _ => Fulfilled 1000000000000000000 |}.

End WalletMultiChain.

(** * Properties *)

(** ** The sort under the fee comparison *)

Section SortedFees.
Context {A : Type} (value : A -> BigNumber.t).


Lemma compareFees_negative (a b : A) :
  (GasEstimator.compareFees value a b <? 0) = (value a <? value b).
Proof.
  unfold GasEstimator.compareFees, BigNumber.isNegative, BigNumber.sub.
  destruct (value a - value b <? 0) eqn:E, (value a <? value b) eqn:F;
    try reflexivity; lia.
Qed.

Lemma insert_Forall (P : A -> Prop) (x : A) (l : list A) :
  P x -> Forall P l -> Forall P (insert (GasEstimator.compareFees value) x l).
Proof.
  intros Hx Hl. induction Hl as [|y rest Hy Hrest IH]; simpl.
  - constructor; [exact Hx | constructor].
  - destruct (GasEstimator.compareFees value x y <? 0).
    + constructor; [exact Hx | constructor; assumption].
    + constructor; assumption.
Qed.

Lemma insert_Permutation (x : A) (l : list A) :
  Permutation (x :: l) (insert (GasEstimator.compareFees value) x l).
Proof.
  induction l as [|y rest IH]; simpl.
  - apply Permutation_refl.
  - destruct (GasEstimator.compareFees value x y <? 0).
    + apply Permutation_refl.
    + eapply perm_trans; [apply perm_swap | apply perm_skip, IH].
Qed.

Lemma insert_ascending (x : A) (l : list A) :
  StronglySorted (ascending value) l ->
  StronglySorted (ascending value) (insert (GasEstimator.compareFees value) x l).
Proof.
  intros Hl. induction Hl as [|y rest Hrest IH Hy]; simpl.
  - constructor; constructor.
  - rewrite compareFees_negative.
    destruct (value x <? value y) eqn:E.
    + constructor.
      * constructor; assumption.
      * constructor.
        -- unfold ascending; lia.
        -- eapply Forall_impl; [|exact Hy].
           unfold ascending; intros z Hz; lia.
    + constructor.
      * exact IH.
      * apply insert_Forall; [unfold ascending; lia | exact Hy].
Qed.

(** An element is inserted behind the elements of its own value. *)
Lemma insert_holding (v : Z) (x : A) (l : list A) :
  StronglySorted (ascending value) l ->
  holding value v (insert (GasEstimator.compareFees value) x l)
  = holding value v l ++ holding value v [x].
Proof.
  intros Hl. induction Hl as [|y rest Hrest IH Hy]; simpl.
  - reflexivity.
  - rewrite compareFees_negative.
    destruct (value x <? value y) eqn:E.
    + unfold holding in *; simpl.
      destruct (value x =? v) eqn:Ex.
      * assert (Hnone : filter (fun a => value a =? v) rest = []).
        { clear IH Hrest. induction Hy as [|z rest' Hz Hrest' IH']; simpl.
          - reflexivity.
          - unfold ascending in Hz.
            destruct (value z =? v) eqn:Ez; [lia | exact IH']. }
        rewrite Hnone.
        destruct (value y =? v) eqn:Ey; [lia | reflexivity].
      * rewrite app_nil_r. reflexivity.
    + unfold holding in *; simpl.
      destruct (value y =? v); simpl; rewrite IH; reflexivity.
Qed.

Lemma fold_insert_spec (l prefix : list A) :
  StronglySorted (ascending value) prefix ->
  let s := fold_left
             (fun acc x => insert (GasEstimator.compareFees value) x acc)
             l prefix in
  StronglySorted (ascending value) s
  /\ Permutation (prefix ++ l) s
  /\ forall v, holding value v s = holding value v prefix ++ holding value v l.
Proof.
  revert prefix. induction l as [|x rest IH]; intros prefix Hp; simpl.
  - rewrite app_nil_r. split; [exact Hp | split].
    + apply Permutation_refl.
    + intros v. rewrite app_nil_r. reflexivity.
  - destruct (IH _ (insert_ascending x prefix Hp)) as (Hs & Hperm & Hst).
    split; [exact Hs | split].
    + eapply perm_trans; [|exact Hperm].
      apply perm_trans with ((x :: prefix) ++ rest).
      * apply Permutation_sym, Permutation_middle.
      * apply Permutation_app_tail, insert_Permutation.
    + intros v. rewrite Hst, insert_holding by exact Hp.
      rewrite <- app_assoc. f_equal.
      unfold holding; simpl. destruct (value x =? v); reflexivity.
Qed.

(** *** The other calling convention *)

Lemma compareFees_positive (a b : A) :
  (0 <? GasEstimator.compareFees value a b) = (value b <=? value a).
Proof.
  unfold GasEstimator.compareFees, BigNumber.isNegative, BigNumber.sub.
  destruct (value a - value b <? 0) eqn:E, (value b <=? value a) eqn:F;
    try reflexivity; lia.
Qed.

Lemma insertEarlierFirst_Forall (P : A -> Prop) (x : A) (l : list A) :
  P x -> Forall P l ->
  Forall P (insertEarlierFirst (GasEstimator.compareFees value) x l).
Proof.
  intros Hx Hl. induction Hl as [|y rest Hy Hrest IH]; simpl.
  - constructor; [exact Hx | constructor].
  - destruct (0 <? GasEstimator.compareFees value y x).
    + constructor; [exact Hx | constructor; assumption].
    + constructor; assumption.
Qed.

Lemma insertEarlierFirst_Permutation (x : A) (l : list A) :
  Permutation (x :: l)
    (insertEarlierFirst (GasEstimator.compareFees value) x l).
Proof.
  induction l as [|y rest IH]; simpl.
  - apply Permutation_refl.
  - destruct (0 <? GasEstimator.compareFees value y x).
    + apply Permutation_refl.
    + eapply perm_trans; [apply perm_swap | apply perm_skip, IH].
Qed.

Lemma insertEarlierFirst_ascending (x : A) (l : list A) :
  StronglySorted (ascending value) l ->
  StronglySorted (ascending value)
    (insertEarlierFirst (GasEstimator.compareFees value) x l).
Proof.
  intros Hl. induction Hl as [|y rest Hrest IH Hy]; simpl.
  - constructor; constructor.
  - rewrite compareFees_positive.
    destruct (value x <=? value y) eqn:E.
    + constructor.
      * constructor; assumption.
      * constructor.
        -- unfold ascending; lia.
        -- eapply Forall_impl; [|exact Hy].
           unfold ascending; intros z Hz; lia.
    + constructor.
      * exact IH.
      * apply insertEarlierFirst_Forall; [unfold ascending; lia | exact Hy].
Qed.

Lemma fold_insertEarlierFirst_spec (l prefix : list A) :
  StronglySorted (ascending value) prefix ->
  let s := fold_left
             (fun acc x =>
                insertEarlierFirst (GasEstimator.compareFees value) x acc)
             l prefix in
  StronglySorted (ascending value) s /\ Permutation (prefix ++ l) s.
Proof.
  revert prefix. induction l as [|x rest IH]; intros prefix Hp; simpl.
  - rewrite app_nil_r. split; [exact Hp | apply Permutation_refl].
  - destruct (IH _ (insertEarlierFirst_ascending x prefix Hp)) as (Hs & Hperm).
    split; [exact Hs|].
    eapply perm_trans; [|exact Hperm].
    apply perm_trans with ((x :: prefix) ++ rest).
    + apply Permutation_sym, Permutation_middle.
    + apply Permutation_app_tail, insertEarlierFirst_Permutation.
Qed.

Lemma ascending_values (l : list A) :
  StronglySorted (ascending value) l -> StronglySorted Z.le (map value l).
Proof.
  induction 1 as [|x rest Hrest IH Hx]; simpl; constructor.
  - exact IH.
  - apply Forall_map. exact Hx.
Qed.

End SortedFees.

(** Two ascending lists of integers with the same elements are the same
    list. *)
Lemma ascending_unique (l l' : list Z) :
  StronglySorted Z.le l -> StronglySorted Z.le l' -> Permutation l l' ->
  l = l'.
Proof.
  intros Hl. revert l'.
  induction Hl as [|x rest Hrest IH Hx]; intros l' Hl' Hperm.
  - apply Permutation_nil in Hperm. symmetry. exact Hperm.
  - destruct Hl' as [|x' rest' Hrest' Hx'].
    + apply Permutation_sym, Permutation_nil in Hperm. discriminate Hperm.
    + assert (Heq : x = x').
      { rewrite Forall_forall in Hx, Hx'.
        assert (Hin : In x (x' :: rest'))
          by (apply (Permutation_in _ Hperm); left; reflexivity).
        assert (Hin' : In x' (x :: rest))
          by (apply (Permutation_in _ (Permutation_sym Hperm)); left;
              reflexivity).
        destruct Hin as [E|Hin]; [symmetry; exact E|].
        destruct Hin' as [E|Hin']; [exact E|].
        specialize (Hx _ Hin'). specialize (Hx' _ Hin). lia. }
      subst x'. f_equal.
      apply IH; [exact Hrest'|].
      exact (Permutation_cons_inv Hperm).
Qed.

(** ** The gas estimator *)

Module GasEstimatorFacts.
Import GasEstimator.

Lemma resolveGasLimit_run (p : Provider) (tx : option Transaction) (w : World) :
  resolveGasLimit p tx w = (w, Normal (gasLimitOf p tx)).
Proof.
  unfold resolveGasLimit, gasLimitOf, Exn.try_catch.
  destruct tx as [t|]; simpl.
  - destruct (provider_estimateGas p t); reflexivity.
  - reflexivity.
Qed.

Lemma sample_of_fetches (p : Provider) (n : Z) (indices : list nat) :
  nonZeroFees
    (validBlocks
       (map (fun i => catch_null (getBlock p (Number (n - Z.of_nat i))))
            indices))
  = flat_map
      (fun i => contribution (getBlock p (Number (n - Z.of_nat i))))
      indices.
Proof.
  induction indices as [|i rest IH]; simpl.
  - reflexivity.
  - destruct (getBlock p (Number (n - Z.of_nat i))) as [[b|]|msg]; simpl;
      try exact IH.
    destruct (baseFeePerGas b) as [fee|] eqn:Hfee; simpl; try exact IH.
    rewrite Hfee. unfold BigNumber.isZero.
    destruct (fee =? 0); simpl; rewrite IH; reflexivity.
Qed.

Lemma historical_sample (p : Provider) (n : Z) (count : nat) :
  nonZeroFees (validBlocks (fetchHistorical p n count))
  = sampleOfFetches p n count.
Proof. apply sample_of_fetches. Qed.

(** The snapshot a cycle computes from the current block, the bump and
    the provider's answers. *)
Lemma cycle_succeeds (o : GasEstimatorOptions) (p : Provider)
    (tx : option Transaction) (w : World) (cur : Block) (bump : BigNumber.t) :
  getBlock p Latest = Fulfilled (Some cur) ->
  BigNumber.from (priorityFeeBump o) = Normal bump ->
  let base := baseFeeOrZero cur in
  let est :=
    estimationResult base (base * 2 + bump * 1000000000)
      (bump * 1000000000) (gasLimitOf p tx)
      (seedIfEmpty (sampleOfFetches p (number cur) (historicalBlocks o)) base) in
  cycle o p tx w
  = ({| state :=
          {| loading := loading (state w);
             error := None;
             estimation := Some est;
             blockHistory :=
               firstn 100
                 (validBlocks
                    (fetchHistorical p (number cur) (historicalBlocks o))
                  ++ blockHistory (state w)) |};
        calls := if onSuccess o then calls w ++ [OnSuccess est] else calls w |},
     Normal tt).
Proof.
  intros Hlatest Hbump base est.
  unfold cycle, Exn.bind.
  rewrite Hlatest. simpl. rewrite Hbump. simpl.
  rewrite resolveGasLimit_run.
  unfold historicalBaseFees. rewrite historical_sample.
  unfold notify. destruct (onSuccess o); reflexivity.
Qed.

(** A cycle that throws has written nothing but the block history. *)
Lemma cycle_throws (o : GasEstimatorOptions) (p : Provider)
    (tx : option Transaction) (w w' : World) (message : string) :
  cycle o p tx w = (w', Throw message) ->
  loading (state w') = loading (state w)
  /\ error (state w') = error (state w)
  /\ estimation (state w') = estimation (state w)
  /\ calls w' = calls w.
Proof.
  unfold cycle, Exn.bind.
  destruct (getBlock p Latest) as [[cur|]|msg]; simpl.
  - destruct (BigNumber.from (priorityFeeBump o)) as [bump|msg] eqn:Hbump;
      simpl.
    + rewrite resolveGasLimit_run. unfold notify.
      destruct (onSuccess o); simpl; intros H; inversion H.
    + intros H; inversion H; subst; simpl. repeat split.
  - intros H; inversion H; subst. repeat split.
  - intros H; inversion H; subst. repeat split.
Qed.

(** A cycle completes normally only when the latest block was fetched and
    the bump is a number [BigNumber.from] takes. *)
Lemma cycle_normal (o : GasEstimatorOptions) (p : Provider)
    (tx : option Transaction) (w w' : World) (u : unit) :
  cycle o p tx w = (w', Normal u) ->
  exists cur bump,
    getBlock p Latest = Fulfilled (Some cur)
    /\ BigNumber.from (priorityFeeBump o) = Normal bump.
Proof.
  unfold cycle, Exn.bind.
  destruct (getBlock p Latest) as [[cur|]|msg]; simpl.
  - destruct (BigNumber.from (priorityFeeBump o)) as [bump|msg] eqn:Hbump;
      simpl.
    + intros _. exists cur, bump. split; reflexivity.
    + intros H; inversion H.
  - intros H; inversion H.
  - intros H; inversion H.
Qed.

Lemma from_value (value : Z) (bump : BigNumber.t) :
  BigNumber.from value = Normal bump -> bump = value.
Proof.
  unfold BigNumber.from.
  destruct ((BigNumber.MAX_SAFE <=? value) || (value <=? - BigNumber.MAX_SAFE));
    intros H; inversion H; reflexivity.
Qed.

(** [estimateGas] with a provider, by the completion of its cycle. *)
Lemma estimateGas_run (o : GasEstimatorOptions) (p : Provider)
    (tx : option Transaction) (w : World) :
  provider o = Some p ->
  after o tx w
  = match cycle o p tx (started w) with
    | (w', Normal _) => fst (setLoading false w')
    | (w', Throw message) =>
        fst (setLoading false (fst (onFailure o message w')))
    end.
Proof.
  intros Hp. unfold after, estimateGas. rewrite Hp.
  unfold Exn.try_finally, Exn.try_catch, Exn.bind, started.
  simpl.
  destruct (cycle o p tx _) as [w' [u|message]]; simpl.
  - reflexivity.
  - unfold onFailure, Exn.bind, notify. simpl.
    destruct (onError o); reflexivity.
Qed.


(** C1. A cycle that succeeds (it leaves no error) has emitted a snapshot
    in which, over the integers, [maxPriorityFeePerGas] is the priority
    fee bump times 10^9, [maxFeePerGas] is twice [baseFee] plus
    [maxPriorityFeePerGas], and [estimatedCost] is [maxFeePerGas] times
    [gasLimit]. *)
Theorem snapshot_formulas (o : GasEstimatorOptions) (tx : option Transaction)
    (w : World) :
  error (state (after o tx w)) = None ->
  exists est,
    estimation (state (after o tx w)) = Some est
    /\ maxPriorityFeePerGas est = priorityFeeBump o * 10 ^ 9
    /\ maxFeePerGas est = baseFee est * 2 + maxPriorityFeePerGas est
    /\ estimatedCost est = maxFeePerGas est * gasLimit est.
Proof.
  destruct (provider o) as [p|] eqn:Hp.
  - rewrite (estimateGas_run o p tx w Hp).
    destruct (cycle o p tx (started w)) as [w' [u|message]] eqn:Hcycle.
    + destruct (cycle_normal _ _ _ _ _ _ Hcycle) as (cur & bump & Hcur & Hbump).
      rewrite (cycle_succeeds o p tx (started w) cur bump Hcur Hbump) in Hcycle.
      inversion Hcycle; subst w'; clear Hcycle.
      apply from_value in Hbump. subst bump.
      intros _. simpl. eexists. split; [reflexivity|].
      simpl. unfold BigNumber.mul, BigNumber.add.
      repeat split.
    + unfold onFailure, Exn.bind, notify. simpl.
      destruct (onError o); simpl; intros H; discriminate H.
  - unfold after, estimateGas. rewrite Hp. simpl. intros H; discriminate H.
Qed.

(** The figures of the specification: base fee 1,000,000,000 and bump 10
    with the default gas limit cost 252,000,000,000,000. *)
Lemma snapshot_formulas_witness :
  exists est,
    estimation (state (after (optionsWith (steadyProvider 1000000000)) None
                         freshWorld)) = Some est
    /\ maxPriorityFeePerGas est = 10 * 10 ^ 9
    /\ maxFeePerGas est = baseFee est * 2 + maxPriorityFeePerGas est
    /\ estimatedCost est = maxFeePerGas est * gasLimit est.
Proof.
  apply (snapshot_formulas (optionsWith (steadyProvider 1000000000)) None
           freshWorld).
  reflexivity.
Defined.

Example snapshot_of_the_specification :
  option_map
    (fun est => (maxPriorityFeePerGas est, maxFeePerGas est, gasLimit est,
                 estimatedCost est))
    (estimation (state settledWorld))
  = Some (10000000000, 12000000000, 21000, 252000000000000).
Proof. vm_compute. reflexivity. Qed.

(** What a cycle leaves behind when the latest block was fetched. *)
Lemma estimateGas_succeeds (o : GasEstimatorOptions) (p : Provider)
    (tx : option Transaction) (w : World) (cur : Block) (bump : BigNumber.t) :
  provider o = Some p ->
  getBlock p Latest = Fulfilled (Some cur) ->
  BigNumber.from (priorityFeeBump o) = Normal bump ->
  let base := baseFeeOrZero cur in
  let sample :=
    seedIfEmpty (sampleOfFetches p (number cur) (historicalBlocks o)) base in
  let est :=
    estimationResult base (base * 2 + bump * 1000000000)
      (bump * 1000000000) (gasLimitOf p tx) sample in
  estimation (state (after o tx w)) = Some est
  /\ error (state (after o tx w)) = None
  /\ loading (state (after o tx w)) = false
  /\ calls (after o tx w)
     = (if onSuccess o then calls w ++ [OnSuccess est] else calls w).
Proof.
  intros Hp Hcur Hbump base sample est.
  rewrite (estimateGas_run o p tx w Hp).
  rewrite (cycle_succeeds o p tx (started w) cur bump Hcur Hbump).
  simpl. repeat split.
Qed.

Lemma sample_of_failing (failed : Z -> bool) (p : Provider) (n : Z)
    (count : nat) :
  sampleOfFetches (failing failed p) n count
  = sampleOfSurvivors failed p n count.
Proof.
  unfold sampleOfFetches, sampleOfSurvivors.
  apply flat_map_ext. intros i. simpl.
  destruct (failed (n - Z.of_nat i)); reflexivity.
Qed.

(** C2. Let any subset [failed] of the historical fetches fail. A cycle
    whose latest block was fetched still completes: it emits a snapshot,
    leaves no error and reports success, and the sample behind the
    snapshot holds what the other fetches gave and nothing for a failed
    one. *)
Theorem failed_fetches_tolerated (o : GasEstimatorOptions) (p : Provider)
    (failed : Z -> bool) (tx : option Transaction) (w : World) (cur : Block)
    (bump : BigNumber.t) :
  provider o = Some (failing failed p) ->
  getBlock p Latest = Fulfilled (Some cur) ->
  BigNumber.from (priorityFeeBump o) = Normal bump ->
  let base := baseFeeOrZero cur in
  let sample :=
    seedIfEmpty
      (sampleOfSurvivors failed p (number cur) (historicalBlocks o)) base in
  let est :=
    estimationResult base (base * 2 + bump * 1000000000)
      (bump * 1000000000) (gasLimitOf p tx) sample in
  estimation (state (after o tx w)) = Some est
  /\ error (state (after o tx w)) = None
  /\ loading (state (after o tx w)) = false
  /\ calls (after o tx w)
     = (if onSuccess o then calls w ++ [OnSuccess est] else calls w).
Proof.
  intros Hp Hcur Hbump.
  rewrite <- sample_of_failing.
  exact (estimateGas_succeeds o (failing failed p) tx w cur bump
           Hp Hcur Hbump).
Qed.

(** Of twenty fetches on a steady chain those of the even blocks fail:
    the sample holds the ten fees of the odd blocks. *)
Lemma failed_fetches_tolerated_witness :
  let o := optionsWith (failing Z.even (steadyProvider 7)) in
  let est := estimationResult 7 (7 * 2 + 10 * 1000000000)
               (10 * 1000000000) 21000 (repeat 7 10) in
  estimation (state (after o (Some "tx") freshWorld)) = Some est
  /\ error (state (after o (Some "tx") freshWorld)) = None
  /\ loading (state (after o (Some "tx") freshWorld)) = false
  /\ calls (after o (Some "tx") freshWorld) = [OnSuccess est].
Proof.
  exact (failed_fetches_tolerated
           (optionsWith (failing Z.even (steadyProvider 7)))
           (steadyProvider 7) Z.even (Some "tx") freshWorld
           {| number := 100; baseFeePerGas := Some 7 |} 10
           eq_refl eq_refl eq_refl).
Defined.

(** C3. A cycle that fails at a step it cannot do without, such as the
    fetch of the latest block, leaves the snapshot emitted before as it
    was, records the error and hands it to [onError]; a cycle that
    succeeds leaves no error. *)
Theorem failed_cycle_keeps_snapshot (o : GasEstimatorOptions) (p : Provider)
    (tx : option Transaction) (w : World) :
  provider o = Some p ->
  (forall message,
      snd (cycle o p tx (started w)) = Throw message ->
      estimation (state (after o tx w)) = estimation (state w)
      /\ error (state (after o tx w)) = Some (message_or_default message)
      /\ calls (after o tx w)
         = (if onError o
            then calls w ++ [OnError (message_or_default message)]
            else calls w))
  /\ (forall message,
         getBlock p Latest = Rejected message ->
         snd (cycle o p tx (started w)) = Throw message)
  /\ (forall u,
         snd (cycle o p tx (started w)) = Normal u ->
         error (state (after o tx w)) = None).
Proof.
  intros Hp. rewrite (estimateGas_run o p tx w Hp).
  split; [|split].
  - intros message Hthrow.
    destruct (cycle o p tx (started w)) as [w' c] eqn:Hcycle.
    simpl in Hthrow. subst c.
    destruct (cycle_throws _ _ _ _ _ _ Hcycle) as (_ & _ & Hest & Hcalls).
    unfold onFailure, Exn.bind, notify. simpl.
    destruct (onError o); simpl; rewrite Hest, Hcalls; repeat split.
  - intros message Hlatest. unfold cycle, Exn.bind.
    rewrite Hlatest. reflexivity.
  - intros u Hnormal.
    destruct (cycle o p tx (started w)) as [w' c] eqn:Hcycle.
    simpl in Hnormal. subst c.
    destruct (cycle_normal _ _ _ _ _ _ Hcycle) as (cur & bump & Hcur & Hbump).
    rewrite (cycle_succeeds o p tx (started w) cur bump Hcur Hbump) in Hcycle.
    inversion Hcycle. reflexivity.
Qed.

(** The provider goes down after a first cycle: the first snapshot stays
    and the error is reported. *)
Lemma failed_cycle_keeps_snapshot_witness :
  let o := optionsWith deadProvider in
  estimation (state (after o None settledWorld))
  = estimation (state settledWorld)
  /\ error (state (after o None settledWorld)) = Some "network error"
  /\ calls (after o None settledWorld)
     = calls settledWorld ++ [OnError "network error"].
Proof.
  destruct (failed_cycle_keeps_snapshot (optionsWith deadProvider)
              deadProvider None settledWorld eq_refl) as (Hkeep & Hlatest & _).
  exact (Hkeep "network error" (Hlatest "network error" eq_refl)).
Defined.

Lemma nothing_without_fee (fetched : list (option Block)) :
  Forall withoutFee fetched -> nonZeroFees (validBlocks fetched) = [].
Proof.
  induction 1 as [|r rest Hr Hrest IH]; simpl.
  - reflexivity.
  - destruct r as [b|]; [|exact IH].
    simpl in Hr. destruct (baseFeePerGas b) as [fee|] eqn:Hfee.
    + destruct Hr as [Hr|Hr]; [discriminate Hr|].
      inversion Hr; subst fee. simpl. rewrite Hfee. simpl. exact IH.
    + exact IH.
Qed.

(** C6. When every historical fetch fails, or none of the blocks fetched
    carries a base fee other than zero, the sample is the current base fee
    alone, and the three confidence bands and the three trend figures all
    are that base fee. *)
Theorem lone_base_fee_sample (o : GasEstimatorOptions) (p : Provider)
    (tx : option Transaction) (w : World) (cur : Block) (bump : BigNumber.t) :
  provider o = Some p ->
  getBlock p Latest = Fulfilled (Some cur) ->
  BigNumber.from (priorityFeeBump o) = Normal bump ->
  Forall withoutFee (fetchHistorical p (number cur) (historicalBlocks o)) ->
  let base := baseFeeOrZero cur in
  historicalBaseFees
    (validBlocks (fetchHistorical p (number cur) (historicalBlocks o))) base
  = [base]
  /\ exists est,
       estimation (state (after o tx w)) = Some est
       /\ baseFee est = base
       /\ low (confidence est) = base
       /\ medium (confidence est) = base
       /\ high (confidence est) = base
       /\ average (historicalTrends est) = base
       /\ median (historicalTrends est) = base
       /\ percentile90 (historicalTrends est) = base.
Proof.
  intros Hp Hcur Hbump Hnone base.
  pose proof (nothing_without_fee _ Hnone) as Hempty.
  split.
  - unfold historicalBaseFees. rewrite Hempty. reflexivity.
  - destruct (estimateGas_succeeds o p tx w cur bump Hp Hcur Hbump)
      as (Hest & _).
    rewrite Hest. eexists. split; [reflexivity|].
    rewrite <- historical_sample, Hempty. simpl.
    unfold averageOf, sum, BigNumber.div, BigNumber.add. simpl.
    rewrite Z.quot_1_r.
    repeat split.
Qed.

Lemma lone_base_fee_sample_witness :
  let o := optionsWith (flakyProvider 7) in
  historicalBaseFees
    (validBlocks (fetchHistorical (flakyProvider 7) 100 20)) 7 = [7]
  /\ exists est,
       estimation (state (after o None freshWorld)) = Some est
       /\ baseFee est = 7
       /\ low (confidence est) = 7
       /\ medium (confidence est) = 7
       /\ high (confidence est) = 7
       /\ average (historicalTrends est) = 7
       /\ median (historicalTrends est) = 7
       /\ percentile90 (historicalTrends est) = 7.
Proof.
  apply (lone_base_fee_sample (optionsWith (flakyProvider 7)) (flakyProvider 7)
           None freshWorld {| number := 100; baseFeePerGas := Some 7 |} 10
           eq_refl eq_refl eq_refl).
  vm_compute. repeat constructor.
Defined.

(** Under the convention of [sort], the new element first, fees of equal
    value keep the order they had in the sample. *)
Lemma sort_new_first_keeps_ties {A : Type} (value : A -> BigNumber.t)
    (fees : list A) :
  let sorted := sort (compareFees value) fees in
  StronglySorted (ascending value) sorted
  /\ Permutation fees sorted
  /\ forall v, holding value v sorted = holding value v fees.
Proof.
  exact (fold_insert_spec value fees [] (SSorted_nil _)).
Qed.

(** C7, as the claim has it: fees of equal value would keep the order they
    had in the sample. The comparison function never answers 0, and under
    the convention that hands it the element already placed first, two
    fees of the same value come out in the opposite order. *)
Lemma tie_order_depends_on_the_engine :
  ~ (forall v,
        holding feeOf v
          (sortEarlierFirst (compareFees feeOf)
             [tagged 5 "a"; tagged 5 "c"])
        = holding feeOf v [tagged 5 "a"; tagged 5 "c"]).
Proof.
  intros H. specialize (H 5). vm_compute in H. discriminate H.
Qed.

(** C7. Under either convention of calling the comparison function the
    sorted sample is ascending by the numeric value of the fees and holds
    the fees of the sample, and the values it lists, in order, are the
    same under both. *)
Theorem sorted_sample_ascending {A : Type} (value : A -> BigNumber.t)
    (fees : list A) :
  let sorted := sort (compareFees value) fees in
  let sorted' := sortEarlierFirst (compareFees value) fees in
  StronglySorted (ascending value) sorted
  /\ Permutation fees sorted
  /\ StronglySorted (ascending value) sorted'
  /\ Permutation fees sorted'
  /\ map value sorted' = map value sorted.
Proof.
  destruct (fold_insert_spec value fees [] (SSorted_nil _))
    as (Hs & Hp & _).
  destruct (fold_insertEarlierFirst_spec value fees [] (SSorted_nil _))
    as (Hs' & Hp').
  simpl in Hp, Hp'.
  repeat split; try assumption.
  apply ascending_unique.
  - apply ascending_values. exact Hs'.
  - apply ascending_values. exact Hs.
  - apply Permutation_map.
    eapply perm_trans; [apply Permutation_sym; exact Hp' | exact Hp].
Qed.

(** By value, not by the decimal spelling, which would put 10 and 100
    before 9. *)
Example sortedFees_numeric : sortedFees [10; 9; 100; 9] = [9; 9; 10; 100].
Proof. reflexivity. Qed.

Example sort_keeps_ties_in_order :
  sort (compareFees feeOf)
    [tagged 5 "a"; tagged 3 "b"; tagged 5 "c"; tagged 3 "d"]
  = [tagged 3 "b"; tagged 3 "d"; tagged 5 "a"; tagged 5 "c"].
Proof. reflexivity. Qed.

Example sortEarlierFirst_turns_ties_round :
  sortEarlierFirst (compareFees feeOf)
    [tagged 5 "a"; tagged 3 "b"; tagged 5 "c"; tagged 3 "d"]
  = [tagged 3 "d"; tagged 3 "b"; tagged 5 "c"; tagged 5 "a"].
Proof. reflexivity. Qed.

Lemma sortedFees_ascending (fees : list BigNumber.t) :
  StronglySorted Z.le (sortedFees fees) /\ Permutation fees (sortedFees fees).
Proof.
  destruct (fold_insert_spec (fun fee : BigNumber.t => fee) fees []
              (SSorted_nil _)) as (Hs & Hp & _).
  split; assumption.
Qed.


(** *** The loading flag *)

Lemma after_loading (o : GasEstimatorOptions) (tx : option Transaction)
    (w : World) :
  loading (state (after o tx w)) = false.
Proof.
  destruct (provider o) as [p|] eqn:Hp.
  - rewrite (estimateGas_run o p tx w Hp).
    destruct (cycle o p tx (started w)) as [w' [u|message]]; reflexivity.
  - unfold after, estimateGas. rewrite Hp. reflexivity.
Qed.

(** A call is its beginning followed by its completion. *)
Lemma estimateGas_begin_resume (o : GasEstimatorOptions) (p : Provider)
    (tx : option Transaction) (w : World) :
  provider o = Some p ->
  after o tx w = fst (resume o p tx (fst (begin o w))).
Proof.
  intros Hp. unfold after, estimateGas, begin, resume. rewrite Hp.
  unfold Exn.try_finally, Exn.try_catch, Exn.bind. simpl.
  reflexivity.
Qed.

Lemma estimateGas_without_provider (o : GasEstimatorOptions)
    (tx : option Transaction) (w : World) :
  provider o = None ->
  after o tx w = fst (begin o w).
Proof.
  intros Hp. unfold after, estimateGas, begin. rewrite Hp. reflexivity.
Qed.

Lemma resume_loading (o : GasEstimatorOptions) (p : Provider)
    (tx : option Transaction) (w : World) :
  loading (state (fst (resume o p tx w))) = false.
Proof.
  unfold resume, Exn.try_finally, Exn.try_catch.
  destruct (cycle o p tx w) as [w' [u|message]]; simpl.
  - reflexivity.
  - destruct (onFailure o message w') as [w'' c]. simpl.
    destruct c; reflexivity.
Qed.

(** C10, as the claim has it: the flag would be true only with a call in
    flight. The hook is mounted with the flag true and no call made. *)
Lemma loading_true_before_first_call :
  ~ (forall e, reachable e ->
       loading (state (world e)) = true -> (0 < in_flight e)%nat).
Proof.
  intros H. specialize (H mounted reachable_mounted eq_refl).
  simpl in H. inversion H.
Qed.

(** C10. After every call of [estimateGas] that has completed, with a
    snapshot, with an error or at once for want of a provider, the loading
    flag is false; and once a first call has begun the flag is true only
    while a call is in flight. *)
Theorem loading_flag :
  (forall o tx w, loading (state (after o tx w)) = false)
  /\ (forall e,
         reachable e ->
         loading (state (world e)) = true ->
         (0 < in_flight e)%nat \/ begun e = 0%nat).
Proof.
  split.
  - exact after_loading.
  - intros e Hreach. induction Hreach as [|e e' Hreach IH Hstep].
    + intros _. right. reflexivity.
    + destruct Hstep as [o e Hp | o p e Hp | o p tx e Hpos]; simpl.
      * unfold begin. rewrite Hp. simpl. intros H; discriminate H.
      * intros _. left. apply Nat.lt_0_succ.
      * rewrite resume_loading. intros H; discriminate H.
Qed.

(** A call begins on the mounted hook: the flag is true and the call is in
    flight; the call completes: the flag is false. *)
Lemma loading_flag_witness :
  let o := optionsWith (steadyProvider 1) in
  let e1 := {| world := fst (begin o (world mounted));
               begun := 1; in_flight := 1 |} in
  loading (state (after o None freshWorld)) = false
  /\ ((0 < in_flight e1)%nat \/ begun e1 = 0%nat).
Proof.
  destruct loading_flag as (Hafter & Hflight).
  split.
  - exact (Hafter (optionsWith (steadyProvider 1)) None freshWorld).
  - apply Hflight.
    + exact (reachable_step mounted _ reachable_mounted
               (call_begins (optionsWith (steadyProvider 1))
                  (steadyProvider 1) mounted eq_refl)).
    + reflexivity.
Defined.

End GasEstimatorFacts.

(** ** The transaction monitor *)

Module TransactionStatusFacts.
Import TransactionStatus.

Ltac run_poll :=
  unfold getTransactionStatus, Exn.try_catch, pollBody, pollFailed, Exn.bind,
    Exn.await, setTransactionInfo, setPollingInterval, Exn.modify, Exn.ret,
    Exn.throw.

Ltac split_ifs :=
  repeat match goal with
         | |- context [if ?b then _ else _] => destruct b
         | |- context [match ?x with Some _ => _ | None => _ end] => destruct x
         end.

Lemma no_hash (txHash : string) :
  txHash <> "" -> String.eqb txHash "" = false.
Proof. intros H. apply String.eqb_neq. exact H. Qed.

(** The effect writes the ref and the log only. *)
Lemma reconcile_transactionInfo (o : TransactionStatusOptions) (w : World) :
  transactionInfo (reconcile o w) = transactionInfo w.
Proof. unfold reconcile, notify, setPrevStatusRef. split_ifs; reflexivity. Qed.

Lemma reconcile_pollingInterval (o : TransactionStatusOptions) (w : World) :
  pollingInterval (reconcile o w) = pollingInterval w.
Proof. unfold reconcile, notify, setPrevStatusRef. split_ifs; reflexivity. Qed.

(** A poll with a provider and a hash: the state [getTransactionStatus]
    leaves. *)
Lemma poll_transactionInfo (o : TransactionStatusOptions) (p : Provider)
    (txHash : string) (w : World) :
  txHash <> "" ->
  transactionInfo (poll o (Some p) txHash w)
  = transactionInfo (fst (getTransactionStatus o (Some p) txHash w)).
Proof.
  intros Hhash. unfold poll. rewrite (no_hash _ Hhash).
  apply reconcile_transactionInfo.
Qed.

Lemma poll_pollingInterval (o : TransactionStatusOptions) (p : Provider)
    (txHash : string) (w : World) :
  txHash <> "" ->
  pollingInterval (poll o (Some p) txHash w)
  = pollingInterval (fst (getTransactionStatus o (Some p) txHash w)).
Proof.
  intros Hhash. unfold poll. rewrite (no_hash _ Hhash).
  apply reconcile_pollingInterval.
Qed.

(** C4. On a poll that finds a receipt, [confirmations] is the current
    block number less the block number of the receipt, plus one; a receipt
    of status 1 gives [confirmed] from [requiredConfirmations] on and
    [confirming] below, any other receipt gives [failed]; one confirmation
    short of [requiredConfirmations] the status is [confirming]. *)
Theorem receipt_classified (o : TransactionStatusOptions) (p : Provider)
    (txHash : string) (w : World) (tx : Transaction) (receipt : Receipt)
    (currentBlock : Z) :
  txHash <> "" ->
  getTransaction p txHash = Fulfilled (Some tx) ->
  getTransactionReceipt p txHash = Fulfilled (Some receipt) ->
  getBlockNumber p = Fulfilled currentBlock ->
  let info := transactionInfo (poll o (Some p) txHash w) in
  let c := currentBlock - blockNumber receipt + 1 in
  confirmations info = c
  /\ (receipt_status receipt = 1 -> requiredConfirmations o <= c ->
      status info = Confirmed)
  /\ (receipt_status receipt = 1 -> c < requiredConfirmations o ->
      status info = Confirming)
  /\ (receipt_status receipt <> 1 -> status info = Failed)
  /\ (receipt_status receipt = 1 -> c = requiredConfirmations o - 1 ->
      status info = Confirming).
Proof.
  intros Hhash Htx Hreceipt Hblock info c. subst info.
  rewrite (poll_transactionInfo o p txHash w Hhash).
  run_poll. rewrite (no_hash _ Hhash), Htx, Hreceipt, Hblock. simpl.
  unfold newStatus. fold c.
  split; [reflexivity|].
  destruct (receipt_status receipt =? 1) eqn:Hs;
    destruct (requiredConfirmations o <=? c) eqn:Hc;
    repeat split; intros; try reflexivity; lia.
Qed.

(** Two confirmations are asked for and the receipt has one. *)
Lemma receipt_classified_witness :
  let info := transactionInfo
                (poll cautious (Some (minedProvider 1 10 0)) "0xabc"
                   (mounted cautious)) in
  confirmations info = 1 /\ status info = Confirming.
Proof.
  destruct (receipt_classified cautious (minedProvider 1 10 0) "0xabc"
              (mounted cautious) "tx"
              {| receipt_status := 1; blockNumber := 10;
                 receipt_gasUsed := 21000;
                 receipt_effectiveGasPrice := 1000000000 |} 10
              ltac:(discriminate) eq_refl eq_refl eq_refl)
    as (Hc & _ & _ & _ & Hshort).
  split; [exact Hc | exact (Hshort eq_refl eq_refl)].
Defined.


(** *** Congestion and the polling interval *)

Lemma congestion_high (p : Provider) :
  getNetworkCongestion p = High
  <-> exists fee,
        getFeeData p ForCongestion
        = Fulfilled {| fee_maxFeePerGas := Some fee |}
        /\ (100 < formatUnits_gwei fee)%Q.
Proof.
  unfold getNetworkCongestion.
  destruct (getFeeData p ForCongestion) as [[[fee|]]|message]; simpl.
  - destruct (Qle_bool (formatUnits_gwei fee) 100) eqn:Hle.
    + split; [intros H; discriminate H|].
      intros (fee' & Heq & Hlt). inversion Heq; subst fee'.
      apply Qle_bool_iff in Hle. apply Qlt_not_le in Hlt. contradiction.
    + split; [|reflexivity].
      intros _. exists fee. split; [reflexivity|].
      apply Qnot_le_lt. intros Hle'.
      apply Qle_bool_iff in Hle'. rewrite Hle' in Hle. discriminate Hle.
  - split; [intros H; discriminate H|].
    intros (fee' & Heq & _). discriminate Heq.
  - split; [intros H; discriminate H|].
    intros (fee' & Heq & _). discriminate Heq.
Qed.

Lemma congestion_unknown (p : Provider) :
  getNetworkCongestion p = Unknown
  <-> exists message, getFeeData p ForCongestion = Rejected message.
Proof.
  unfold getNetworkCongestion.
  destruct (getFeeData p ForCongestion) as [feeData|message].
  - split.
    + destruct (Qle_bool _ 100); intros H; discriminate H.
    + intros (message & H). discriminate H.
  - split; [|reflexivity]. intros _. exists message. reflexivity.
Qed.

(** More than 100 gwei is more than 10^11 wei. *)
Lemma above_100_gwei (fee : BigNumber.t) :
  (100 < formatUnits_gwei fee)%Q <-> 100 * 10 ^ 9 < fee.
Proof. unfold formatUnits_gwei, Qlt. simpl. lia. Qed.

(** The interval a poll leaves when it found the transaction and did not
    throw. *)
Lemma interval_after_poll (o : TransactionStatusOptions) (p : Provider)
    (txHash : string) (w : World) (tx : Transaction) :
  txHash <> "" ->
  getTransaction p txHash = Fulfilled (Some tx) ->
  snd (pollBody o p txHash w) = Normal tt ->
  pollingInterval (poll o (Some p) txHash w)
  = match getNetworkCongestion p with
    | High => Qmin (pollingInterval w * (3 # 2)) 30000
    | _ => initialPollingInterval o
    end.
Proof.
  intros Hhash Htx.
  rewrite (poll_pollingInterval o p txHash w Hhash).
  run_poll. rewrite (no_hash _ Hhash), Htx. simpl.
  destruct (getTransactionReceipt p txHash) as [[receipt|]|message]; simpl.
  - destruct (getBlockNumber p) as [currentBlock|message]; simpl.
    + intros _. reflexivity.
    + intros H; discriminate H.
  - intros _. reflexivity.
  - intros H; discriminate H.
Qed.

(** C8. On a poll that finds the transaction and does not throw,
    congestion is [high] exactly when the provider's max fee, in gwei,
    exceeds 100, [unknown] exactly when the provider fails, and [normal]
    otherwise; the interval becomes the smaller of one and a half times
    the interval before and 30000 under [high], and the initial interval
    under any other congestion. *)
Theorem congestion_sets_interval (o : TransactionStatusOptions) (p : Provider)
    (txHash : string) (w : World) (tx : Transaction) :
  txHash <> "" ->
  getTransaction p txHash = Fulfilled (Some tx) ->
  snd (pollBody o p txHash w) = Normal tt ->
  let congestion := getNetworkCongestion p in
  let next := pollingInterval (poll o (Some p) txHash w) in
  (congestion = High
   <-> exists fee,
         getFeeData p ForCongestion
         = Fulfilled {| fee_maxFeePerGas := Some fee |}
         /\ (100 < formatUnits_gwei fee)%Q)
  /\ (congestion = Unknown
      <-> exists message, getFeeData p ForCongestion = Rejected message)
  /\ (congestion = High ->
      next = Qmin (pollingInterval w * (3 # 2)) 30000)
  /\ (congestion <> High -> next = initialPollingInterval o).
Proof.
  intros Hhash Htx Hnormal congestion next. subst congestion next.
  rewrite (interval_after_poll o p txHash w tx Hhash Htx Hnormal).
  split; [apply congestion_high|].
  split; [apply congestion_unknown|].
  destruct (getNetworkCongestion p); split; intros H;
    try reflexivity; try discriminate H; contradiction.
Qed.

(** At 150 gwei the interval of 5000 becomes 7500; at 50 gwei an interval
    of 7500 goes back to 5000. *)
Lemma congestion_sets_interval_witness :
  let busy := minedProvider 1 10 150000000000 in
  getNetworkCongestion busy = High
  /\ pollingInterval (poll defaults (Some busy) "0xabc" (mounted defaults))
     = Qmin (5000 * (3 # 2)) 30000.
Proof.
  destruct (congestion_sets_interval defaults
              (minedProvider 1 10 150000000000) "0xabc" (mounted defaults)
              "tx" ltac:(discriminate) eq_refl eq_refl)
    as (_ & _ & Hhigh & _).
  split; [reflexivity | exact (Hhigh eq_refl)].
Defined.

Example interval_grows_then_resets :
  let busy := minedProvider 1 10 150000000000 in
  let calm := minedProvider 1 10 50000000000 in
  let w1 := poll defaults (Some busy) "0xabc" (mounted defaults) in
  let w2 := poll defaults (Some calm) "0xabc" w1 in
  (pollingInterval w1 == 7500)%Q /\ (pollingInterval w2 == 5000)%Q.
Proof. split; vm_compute; reflexivity. Qed.


(** *** Notifications *)

Lemma confirmationCalls_app (l l' : list Call) :
  confirmationCalls (l ++ l')
  = (confirmationCalls l + confirmationCalls l')%nat.
Proof.
  induction l as [|c rest IH]; simpl.
  - reflexivity.
  - destruct c; simpl; rewrite IH; reflexivity.
Qed.

(** [getTransactionStatus] calls none of the callbacks. *)
Lemma getTransactionStatus_calls (o : TransactionStatusOptions)
    (provider : option Provider) (txHash : string) (w : World) :
  calls (fst (getTransactionStatus o provider txHash w)) = calls w.
Proof.
  run_poll. destruct provider as [p|]; [|reflexivity].
  destruct (String.eqb txHash ""); [reflexivity|].
  destruct (getTransaction p txHash) as [[tx|]|message]; simpl;
    try reflexivity.
  destruct (getTransactionReceipt p txHash) as [[receipt|]|message]; simpl;
    try reflexivity.
  destruct (getBlockNumber p) as [currentBlock|message]; reflexivity.
Qed.

(** One run of the effect calls [onConfirmation] once when the status is
    [confirmed] and the callback is there, and not otherwise. *)
Lemma reconcile_confirmations (o : TransactionStatusOptions) (w : World) :
  confirmationCalls (calls (reconcile o w))
  = (confirmationCalls (calls w)
     + (if Status_eqb (status (transactionInfo w)) Confirmed
           && onConfirmation o
        then 1 else 0))%nat.
Proof.
  unfold reconcile, notify, setPrevStatusRef.
  destruct (status (transactionInfo w)), (prevStatusRef w),
    (onStatusChange o), (onConfirmation o), (onError o); simpl;
    try destruct (error (transactionInfo w)) as [message|]; simpl;
    try destruct (negb (String.eqb message "")); simpl;
    rewrite ?confirmationCalls_app; simpl; lia.
Qed.

(** C5, as the claim has it: [onConfirmation] would be called once when
    the status becomes [confirmed] and not again while it stays so. Two
    polls in a row find the transaction confirmed, and the callback has
    been called twice. *)
Lemma confirmation_fires_again :
  let p := minedProvider 1 10 0 in
  let w1 := poll defaults (Some p) "0xabc" (mounted defaults) in
  let w2 := poll defaults (Some p) "0xabc" w1 in
  status (transactionInfo w1) = Confirmed
  /\ confirmationCalls (calls w1) = 1%nat
  /\ status (transactionInfo w2) = Confirmed
  /\ confirmationCalls (calls w2) = 2%nat.
Proof. vm_compute. repeat split. Qed.

Lemma effectRuns_transactionInfo (o : TransactionStatusOptions) (n : nat)
    (w : World) :
  transactionInfo (effectRuns o n w) = transactionInfo w.
Proof.
  revert w. induction n as [|n IH]; intros w; simpl.
  - reflexivity.
  - rewrite IH. apply reconcile_transactionInfo.
Qed.

Lemma effectRuns_confirmations (o : TransactionStatusOptions) (n : nat)
    (w : World) :
  confirmationCalls (calls (effectRuns o n w))
  = (confirmationCalls (calls w)
     + (if Status_eqb (status (transactionInfo w)) Confirmed
           && onConfirmation o
        then n else 0))%nat.
Proof.
  revert w. induction n as [|n IH]; intros w; simpl.
  - destruct (_ && _); lia.
  - rewrite IH, reconcile_confirmations, reconcile_transactionInfo.
    destruct (_ && _); lia.
Qed.

(** C5. With [onConfirmation] registered, the callback is called at every
    run of the effect under the status [confirmed]: once by the poll that
    leaves the status [confirmed], be it the poll on which the status
    becomes [confirmed] or a later one on which it stays so, and once more
    for every further run of the effect before the next poll; a poll that
    leaves another status does not call it. *)
Theorem confirmation_fires_while_confirmed
    (o : TransactionStatusOptions) (p : Provider) (txHash : string)
    (renders : nat) (w : World) :
  txHash <> "" ->
  onConfirmation o = true ->
  let w' := pollRendered o (Some p) txHash renders w in
  status (transactionInfo w') = status (transactionInfo (poll o (Some p) txHash w))
  /\ confirmationCalls (calls w')
     = (confirmationCalls (calls w)
        + (if Status_eqb (status (transactionInfo w')) Confirmed
           then S renders else 0))%nat.
Proof.
  intros Hhash Hreg w'. subst w'. unfold pollRendered.
  rewrite effectRuns_transactionInfo. split; [reflexivity|].
  rewrite effectRuns_confirmations, Hreg, andb_true_r.
  rewrite (poll_transactionInfo o p txHash w Hhash).
  unfold poll. rewrite (no_hash _ Hhash).
  rewrite reconcile_confirmations, getTransactionStatus_calls, Hreg.
  rewrite andb_true_r.
  destruct (Status_eqb _ Confirmed); lia.
Qed.

(** The transaction is already confirmed; the next poll finds it confirmed
    under congestion, the interval changes, and the render that follows
    runs the effect again: two calls for that one poll. *)
Lemma confirmation_fires_while_confirmed_witness :
  let w1 := poll defaults (Some (minedProvider 1 10 0)) "0xabc"
              (mounted defaults) in
  let w2 := pollRendered defaults (Some (minedProvider 1 10 150000000000))
              "0xabc" 1 w1 in
  status (transactionInfo w1) = Confirmed
  /\ status (transactionInfo w2) = Confirmed
  /\ confirmationCalls (calls w2) = (confirmationCalls (calls w1) + 2)%nat.
Proof.
  split; [reflexivity|]. split; [reflexivity|].
  exact (proj2 (confirmation_fires_while_confirmed defaults
                  (minedProvider 1 10 150000000000) "0xabc" 1
                  (poll defaults (Some (minedProvider 1 10 0)) "0xabc"
                     (mounted defaults))
                  ltac:(discriminate) eq_refl)).
Defined.

(** *** The mempool position *)

Lemma not_mined (s : Status) :
  s = Pending \/ s = NotFound \/ s = Error -> ~ mined s.
Proof.
  unfold mined. intros [H|[H|H]] [M|[M|M]]; subst s; discriminate M.
Qed.

(** A poll keeps the position cleared under the statuses a receipt gives. *)
Lemma poll_mined (o : TransactionStatusOptions) (provider : option Provider)
    (txHash : string) (w : World) :
  (mined (status (transactionInfo w)) ->
   mempoolPosition (transactionInfo w) = None) ->
  mined (status (transactionInfo (poll o provider txHash w))) ->
  mempoolPosition (transactionInfo (poll o provider txHash w)) = None.
Proof.
  intros Hw. unfold poll.
  destruct provider as [p|]; [|exact Hw].
  destruct (String.eqb txHash "") eqn:Hhash; [exact Hw|].
  rewrite reconcile_transactionInfo.
  run_poll. rewrite Hhash.
  destruct (getTransaction p txHash) as [[tx|]|message]; simpl.
  - destruct (getTransactionReceipt p txHash) as [[receipt|]|message]; simpl.
    + destruct (getBlockNumber p) as [currentBlock|message]; simpl.
      * intros _. reflexivity.
      * intros H. exfalso. revert H. apply not_mined. auto.
    + intros H. exfalso. revert H. apply not_mined. auto.
    + intros H. exfalso. revert H. apply not_mined. auto.
  - intros H. exfalso. revert H. apply not_mined. auto.
  - intros H. exfalso. revert H. apply not_mined. auto.
Qed.

(** C9, as the claim has it: the position would be null under every
    status but [pending]. A poll sees the transaction second in the
    mempool, the next poll fails, and the status [error] comes with the
    position 2. *)
Lemma position_outlives_pending :
  ~ (forall w,
        reachable defaults "0xdef" w ->
        status (transactionInfo w) <> Pending ->
        mempoolPosition (transactionInfo w) = None).
Proof.
  intros H.
  specialize
    (H (poll defaults (Some downProvider) "0xdef"
          (poll defaults (Some waitingProvider) "0xdef" (mounted defaults)))).
  assert (Hpos : Some 2 = None).
  { apply H.
    - apply reachable_poll, reachable_poll, reachable_mounted.
    - vm_compute. intros E; discriminate E. }
  discriminate Hpos.
Qed.

(** C9. In every state the monitor reaches, the mempool position is null
    under the statuses [confirming], [confirmed] and [failed]. *)
Theorem position_cleared_once_mined (o : TransactionStatusOptions)
    (txHash : string) (w : World) :
  reachable o txHash w ->
  mined (status (transactionInfo w)) ->
  mempoolPosition (transactionInfo w) = None.
Proof.
  induction 1 as [|w provider Hreach IH].
  - intros _. reflexivity.
  - apply poll_mined. exact IH.
Qed.

(** Second in the mempool, then mined: the position is gone. *)
Lemma position_cleared_once_mined_witness :
  let w := poll defaults (Some (minedProvider 1 10 0)) "0xdef"
             (poll defaults (Some waitingProvider) "0xdef"
                (mounted defaults)) in
  mempoolPosition (transactionInfo w) = None.
Proof.
  apply (position_cleared_once_mined defaults "0xdef").
  - apply reachable_poll, reachable_poll, reachable_mounted.
  - right. left. reflexivity.
Defined.

(** Not found on the first poll and confirmed on the second: a history of
    two entries, and the changes of status reported are the one to
    [not found] and the one from it to [confirmed]. *)
Example not_found_then_confirmed :
  let w := polls defaults "0xabc"
             [ {| getTransaction := fun _ => Fulfilled None;
                  getTransactionReceipt := fun _ => Fulfilled None;
                  getBlockNumber := Fulfilled 10;
                  getFeeData := fun _ => Rejected "";
                  send_pending := Rejected "";
                  now := 1 |};
               minedProvider 1 10 0 ]
             (mounted defaults) in
  map entry_status (history (transactionInfo w)) = [NotFound; Confirmed]
  /\ filter (fun c => match c with OnStatusChange _ _ => true | _ => false end)
            (calls w)
     = [OnStatusChange NotFound Pending; OnStatusChange Confirmed NotFound].
Proof. vm_compute. split; reflexivity. Qed.

Example waiting_position :
  mempoolPosition
    (transactionInfo
       (poll defaults (Some waitingProvider) "0xdef" (mounted defaults)))
  = Some 2.
Proof. reflexivity. Qed.

End TransactionStatusFacts.

(** ** More on the gas estimator *)

Module GasEstimatorMore.
Import GasEstimator GasEstimatorFacts.

(** A call that leaves no error found a provider, fetched the latest block
    and took the bump. *)
Lemma success_inversion (o : GasEstimatorOptions) (tx : option Transaction)
    (w : World) :
  error (state (after o tx w)) = None ->
  exists p cur bump,
    provider o = Some p
    /\ getBlock p Latest = Fulfilled (Some cur)
    /\ BigNumber.from (priorityFeeBump o) = Normal bump.
Proof.
  destruct (provider o) as [p|] eqn:Hp.
  - rewrite (estimateGas_run o p tx w Hp).
    destruct (cycle o p tx (started w)) as [w' [u|message]] eqn:Hcycle.
    + destruct (cycle_normal _ _ _ _ _ _ Hcycle) as (cur & bump & Hcur & Hbump).
      intros _. exists p, cur, bump. repeat split; assumption.
    + unfold onFailure, Exn.bind, notify. simpl.
      destruct (onError o); simpl; intros H; discriminate H.
  - unfold after, estimateGas. rewrite Hp. simpl. intros H; discriminate H.
Qed.

(** *** Reading a sorted array *)

Lemma sorted_nth (l : list Z) (d : Z) :
  StronglySorted Z.le l ->
  forall i j, (i <= j)%nat -> (j < List.length l)%nat ->
  nth i l d <= nth j l d.
Proof.
  induction 1 as [|x rest Hrest IH Hx]; intros i j Hij Hj; simpl in Hj.
  - inversion Hj.
  - destruct i as [|i], j as [|j]; simpl.
    + apply Z.le_refl.
    + rewrite Forall_forall in Hx. apply Hx, nth_In. lia.
    + inversion Hij.
    + apply IH; lia.
Qed.

Lemma sortedFees_length (fees : list BigNumber.t) :
  List.length (sortedFees fees) = List.length fees.
Proof.
  symmetry. apply Permutation_length, sortedFees_ascending.
Qed.

Lemma half_le_ninth_tenth (n : nat) : (half n <= ninth_tenth n)%nat.
Proof.
  unfold half, ninth_tenth.
  apply Nat.div_le_lower_bound; [discriminate|].
  pose proof (Nat.Div0.mul_div_le n 2). lia.
Qed.

Lemma ninth_tenth_lt (n : nat) : (0 < n)%nat -> (ninth_tenth n < n)%nat.
Proof.
  intros Hn. unfold ninth_tenth.
  apply Nat.Div0.div_lt_upper_bound. lia.
Qed.

Lemma seedIfEmpty_length (fees : list BigNumber.t) (base : BigNumber.t) :
  (0 < List.length (seedIfEmpty fees base))%nat.
Proof. destruct fees; simpl; lia. Qed.

(** The bands and the percentiles of a sample that is not empty. *)
Lemma bands_ordered (base mf mp g : BigNumber.t) (fees : list BigNumber.t) :
  (0 < List.length fees)%nat ->
  let est := estimationResult base mf mp g fees in
  low (confidence est) <= medium (confidence est)
  /\ median (historicalTrends est) = medium (confidence est)
  /\ medium (confidence est) <= percentile90 (historicalTrends est)
  /\ percentile90 (historicalTrends est) <= high (confidence est).
Proof.
  intros Hlen. simpl. unfold index_or.
  destruct (sortedFees_ascending fees) as (Hsorted & _).
  pose proof (sortedFees_length fees) as Hl. rewrite Hl.
  pose proof (half_le_ninth_tenth (List.length fees)).
  pose proof (ninth_tenth_lt _ Hlen).
  unfold BigNumber.t in *.
  repeat split; apply sorted_nth; try exact Hsorted; lia.
Qed.

(** X1. In the snapshot of a successful cycle the confidence bands are in
    order, the median is the medium band, and the 90th percentile lies
    between the median and the high band. *)
Theorem confidence_bands_ordered (o : GasEstimatorOptions)
    (tx : option Transaction) (w : World) :
  error (state (after o tx w)) = None ->
  exists est,
    estimation (state (after o tx w)) = Some est
    /\ low (confidence est) <= medium (confidence est)
    /\ median (historicalTrends est) = medium (confidence est)
    /\ medium (confidence est) <= percentile90 (historicalTrends est)
    /\ percentile90 (historicalTrends est) <= high (confidence est).
Proof.
  intros Hok.
  destruct (success_inversion o tx w Hok) as (p & cur & bump & Hp & Hcur & Hb).
  destruct (estimateGas_succeeds o p tx w cur bump Hp Hcur Hb) as (Hest & _).
  eexists. split; [exact Hest|].
  apply bands_ordered, seedIfEmpty_length.
Qed.


Lemma confidence_bands_ordered_witness :
  exists est,
    estimation (state (after (optionsWith (steadyProvider 7)) None freshWorld))
    = Some est
    /\ low (confidence est) <= medium (confidence est)
    /\ median (historicalTrends est) = medium (confidence est)
    /\ medium (confidence est) <= percentile90 (historicalTrends est)
    /\ percentile90 (historicalTrends est) <= high (confidence est).
Proof.
  apply (confidence_bands_ordered (optionsWith (steadyProvider 7)) None
           freshWorld).
  reflexivity.
Defined.

(** *** The average *)

Lemma sum_from (fees : list Z) (acc : Z) :
  fold_left (fun a fee => BigNumber.add a fee) fees acc
  = acc + fold_left (fun a fee => BigNumber.add a fee) fees 0.
Proof.
  revert acc. induction fees as [|x rest IH]; intros acc; cbn [fold_left].
  - lia.
  - rewrite (IH (BigNumber.add acc x)), (IH (BigNumber.add 0 x)).
    unfold BigNumber.add. lia.
Qed.

Lemma sum_between (lo hi : Z) (fees : list Z) :
  Forall (fun x => lo <= x <= hi) fees ->
  Z.of_nat (List.length fees) * lo <= sum fees
  /\ sum fees <= Z.of_nat (List.length fees) * hi.
Proof.
  unfold sum. induction 1 as [|x rest Hx Hrest IH].
  - simpl. lia.
  - cbn [fold_left List.length]. rewrite sum_from.
    unfold BigNumber.add at 1 3. lia.
Qed.

(** Every fee of a sample lies between the first and the last element of
    the sorted sample. *)
Lemma sample_between (fees : list Z) (d : Z) :
  Forall
    (fun x => nth 0 (sortedFees fees) d <= x
              <= nth (List.length (sortedFees fees) - 1) (sortedFees fees) d)
    fees.
Proof.
  destruct (sortedFees_ascending fees) as (Hsorted & Hperm).
  apply Forall_forall. intros x Hx.
  apply (Permutation_in _ Hperm) in Hx.
  destruct (In_nth _ _ d Hx) as (i & Hi & Hnth). subst x.
  unfold BigNumber.t in *.
  split; apply sorted_nth; try exact Hsorted; lia.
Qed.

Lemma average_between (base mf mp g : BigNumber.t) (fees : list BigNumber.t) :
  (0 < List.length fees)%nat ->
  let est := estimationResult base mf mp g fees in
  low (confidence est) <= average (historicalTrends est)
  /\ average (historicalTrends est) <= high (confidence est).
Proof.
  intros Hlen. simpl. unfold index_or, averageOf, BigNumber.div.
  unfold BigNumber.t in *.
  destruct (sum_between _ _ fees (sample_between fees base)) as (Hlo & Hhi).
  apply Nat.ltb_lt in Hlen. rewrite Hlen. apply Nat.ltb_lt in Hlen.
  split.
  - apply Z.quot_le_lower_bound; [lia | exact Hlo].
  - apply Z.quot_le_upper_bound; [lia | exact Hhi].
Qed.

(** X2. In the snapshot of a successful cycle the average of the sample,
    rounded towards zero, lies between the low and the high band. *)
Theorem average_within_bands (o : GasEstimatorOptions)
    (tx : option Transaction) (w : World) :
  error (state (after o tx w)) = None ->
  exists est,
    estimation (state (after o tx w)) = Some est
    /\ low (confidence est) <= average (historicalTrends est)
    /\ average (historicalTrends est) <= high (confidence est).
Proof.
  intros Hok.
  destruct (success_inversion o tx w Hok) as (p & cur & bump & Hp & Hcur & Hb).
  destruct (estimateGas_succeeds o p tx w cur bump Hp Hcur Hb) as (Hest & _).
  eexists. split; [exact Hest|].
  apply average_between, seedIfEmpty_length.
Qed.

Lemma average_within_bands_witness :
  exists est,
    estimation (state (after (optionsWith (steadyProvider 7)) None freshWorld))
    = Some est
    /\ low (confidence est) <= average (historicalTrends est)
    /\ average (historicalTrends est) <= high (confidence est).
Proof.
  apply (average_within_bands (optionsWith (steadyProvider 7)) None freshWorld).
  reflexivity.
Defined.


(** *** The gas limit *)

(** X3. Whether a simulation is asked for, and whether it succeeds, has no
    bearing on the success of a cycle; the gas limit of the snapshot is
    what the simulation returned, and 21000 when no transaction was given
    or the simulation failed. *)
Theorem simulation_never_fails_the_cycle (o : GasEstimatorOptions)
    (p : Provider) (tx : option Transaction) (w : World) :
  provider o = Some p ->
  error (state (after o tx w)) = None ->
  (forall tx', error (state (after o tx' w)) = None)
  /\ exists est,
       estimation (state (after o tx w)) = Some est
       /\ gasLimit est
          = match tx with
            | None => 21000
            | Some t =>
                match provider_estimateGas p t with
                | Fulfilled g => g
                | Rejected _ => 21000
                end
            end.
Proof.
  intros Hp Hok.
  destruct (success_inversion o tx w Hok) as (p' & cur & bump & Hp' & Hcur & Hb).
  rewrite Hp in Hp'. inversion Hp'; subst p'.
  split.
  - intros tx'.
    apply (estimateGas_succeeds o p tx' w cur bump Hp Hcur Hb).
  - destruct (estimateGas_succeeds o p tx w cur bump Hp Hcur Hb) as (Hest & _).
    eexists. split; [exact Hest | reflexivity].
Qed.

(** The simulation fails on the flaky chain: the limit is 21000. *)
Lemma simulation_never_fails_the_cycle_witness :
  let o := optionsWith (flakyProvider 7) in
  (forall tx', error (state (after o tx' freshWorld)) = None)
  /\ exists est,
       estimation (state (after o (Some "tx") freshWorld)) = Some est
       /\ gasLimit est = 21000.
Proof.
  exact (simulation_never_fails_the_cycle (optionsWith (flakyProvider 7))
           (flakyProvider 7) (Some "tx") freshWorld eq_refl eq_refl).
Defined.

(** *** What a snapshot depends on *)

(** X4. The snapshot of a successful cycle is a function of the options,
    the provider's answers and the transaction: the state the hook was in,
    its block history included, has no part in it. *)
Theorem snapshot_ignores_earlier_state (o : GasEstimatorOptions)
    (tx : option Transaction) (w w' : World) :
  error (state (after o tx w)) = None ->
  error (state (after o tx w')) = None
  /\ estimation (state (after o tx w')) = estimation (state (after o tx w)).
Proof.
  intros Hok.
  destruct (success_inversion o tx w Hok) as (p & cur & bump & Hp & Hcur & Hb).
  destruct (estimateGas_succeeds o p tx w cur bump Hp Hcur Hb) as (Hest & _).
  destruct (estimateGas_succeeds o p tx w' cur bump Hp Hcur Hb)
    as (Hest' & Herr' & _).
  split; [exact Herr' | rewrite Hest, Hest'; reflexivity].
Qed.

Lemma snapshot_ignores_earlier_state_witness :
  let o := optionsWith (steadyProvider 7) in
  error (state (after o None settledWorld)) = None
  /\ estimation (state (after o None settledWorld))
     = estimation (state (after o None freshWorld)).
Proof.
  exact (snapshot_ignores_earlier_state (optionsWith (steadyProvider 7)) None
           freshWorld settledWorld eq_refl).
Defined.

(** *** The callbacks *)

(** With callbacks that return, [estimateGasWith] is [estimateGas]. *)
Lemma estimateGasWith_returning (o : GasEstimatorOptions)
    (tx : option Transaction) (w : World) :
  afterWith {| onSuccessDoes := Returns; onErrorDoes := Returns |} o tx w
  = after o tx w.
Proof.
  unfold afterWith, after, estimateGasWith, estimateGas, completes.
  destruct (provider o) as [p|]; [|reflexivity].
  unfold Exn.try_finally, Exn.try_catch, Exn.bind. simpl.
  destruct (cycle o p tx _) as [w' [u|message]]; simpl.
  - destruct (onSuccess o); reflexivity.
  - destruct (onFailure o message w') as [w'' [v|m]]; simpl;
      [destruct (onError o)|]; reflexivity.
Qed.

(** X5. The callbacks of a call of [estimateGas], errors being errors with
    a message. Without a provider none is called, [onError] included: the
    error "Provider not available" is only recorded, and the snapshot and
    the block history stay. A cycle that throws calls [onError] with the
    error it records and keeps the snapshot from before. A cycle that
    completes emits its snapshot and calls [onSuccess] with it; when
    [onSuccess] returns no error is left and nothing else is called; when
    [onSuccess] throws, the [catch] clause runs as well: the new snapshot
    stays, what was thrown is recorded as the error, and [onError] is
    called with it after [onSuccess]. *)
Theorem reports_of_a_call (callbacks : Callbacks) (o : GasEstimatorOptions)
    (tx : option Transaction) (w : World) :
  let w' := afterWith callbacks o tx w in
  match provider o with
  | None =>
      error (state w') = Some "Provider not available"
      /\ estimation (state w') = estimation (state w)
      /\ blockHistory (state w') = blockHistory (state w)
      /\ calls w' = calls w
  | Some p =>
      match snd (cycle o p tx (started w)) with
      | Throw message =>
          error (state w') = Some (message_or_default message)
          /\ estimation (state w') = estimation (state w)
          /\ calls w'
             = calls w
               ++ (if onError o
                   then [OnError (message_or_default message)] else [])
      | Normal _ =>
          exists est,
            estimation (state w') = Some est
            /\ match onSuccess o, onSuccessDoes callbacks with
               | true, Throws message =>
                   error (state w') = Some (message_or_default message)
                   /\ calls w'
                      = calls w
                        ++ OnSuccess est
                           :: (if onError o
                               then [OnError (message_or_default message)]
                               else [])
               | true, Returns =>
                   error (state w') = None
                   /\ calls w' = calls w ++ [OnSuccess est]
               | false, _ =>
                   error (state w') = None /\ calls w' = calls w
               end
      end
  end.
Proof.
  intros w'. subst w'. unfold afterWith, estimateGasWith.
  destruct (provider o) as [p|] eqn:Hp; [|simpl; repeat split].
  unfold Exn.try_finally, Exn.try_catch, Exn.bind.
  change (setLoading true w) with (started w, @Normal unit tt).
  cbv iota beta.
  destruct (cycle o p tx (started w)) as [w1 [u|message]] eqn:Hcycle;
    cbn [snd].
  - destruct (cycle_normal _ _ _ _ _ _ Hcycle) as (cur & bump & Hcur & Hb).
    rewrite (cycle_succeeds o p tx (started w) cur bump Hcur Hb) in Hcycle.
    inversion Hcycle; subst w1; clear Hcycle.
    set (est := estimationResult _ _ _ _ _).
    exists est.
    unfold completes, onFailure, Exn.bind, notify.
    destruct (onSuccess o).
    + destruct (onSuccessDoes callbacks) as [|message].
      * simpl. repeat split.
      * destruct (onError o).
        -- destruct (onErrorDoes callbacks); simpl;
             rewrite <- app_assoc; repeat split.
        -- simpl. repeat split.
    + simpl. repeat split.
  - destruct (cycle_throws _ _ _ _ _ _ Hcycle) as (_ & _ & Hest & Hcalls).
    unfold completes, onFailure, Exn.bind, notify.
    destruct (onError o).
    + destruct (onErrorDoes callbacks); simpl;
        rewrite Hest, Hcalls; repeat split.
    + simpl. rewrite Hest, Hcalls, app_nil_r. repeat split.
Qed.

(** A cycle on the steady chain with an [onSuccess] that throws: the
    snapshot is emitted, the error is recorded, and both callbacks have
    been called. *)
Example throwing_onSuccess_reaches_onError :
  let w := afterWith {| onSuccessDoes := Throws "render failed";
                        onErrorDoes := Returns |}
             (optionsWith (steadyProvider 7)) None freshWorld in
  estimation (state w)
  = estimation (state (after (optionsWith (steadyProvider 7)) None freshWorld))
  /\ error (state w) = Some "render failed"
  /\ map (fun c => match c with OnSuccess _ => true | OnError _ => false end)
       (calls w)
     = [true; false].
Proof. vm_compute. repeat split. Qed.

(** *** The block history *)

Lemma Forall_firstn {A : Type} (P : A -> Prop) (n : nat) (l : list A) :
  Forall P l -> Forall P (firstn n l).
Proof.
  intros H. revert n. induction H as [|x rest Hx Hrest IH]; intros [|n]; simpl;
    constructor; auto.
Qed.

Lemma validBlocks_carry_fee (fetched : list (option Block)) :
  Forall (fun b => baseFeePerGas b <> None) (validBlocks fetched).
Proof.
  induction fetched as [|[b|] rest IH]; simpl.
  - constructor.
  - destruct (baseFeePerGas b) as [fee|] eqn:Hfee; [|exact IH].
    constructor; [rewrite Hfee; discriminate | exact IH].
  - exact IH.
Qed.

(** What a cycle does to the block history: the blocks of the cycle go in
    front when the latest block was fetched, and nothing happens
    otherwise. *)
Lemma cycle_blockHistory (o : GasEstimatorOptions) (p : Provider)
    (tx : option Transaction) (w : World) :
  blockHistory (state (fst (cycle o p tx w)))
  = match getBlock p Latest with
    | Fulfilled (Some cur) =>
        firstn 100
          (validBlocks (fetchHistorical p (number cur) (historicalBlocks o))
           ++ blockHistory (state w))
    | _ => blockHistory (state w)
    end.
Proof.
  unfold cycle, Exn.bind.
  destruct (getBlock p Latest) as [[cur|]|msg]; simpl; try reflexivity.
  destruct (BigNumber.from (priorityFeeBump o)) as [bump|msg]; simpl.
  - rewrite resolveGasLimit_run. unfold notify.
    destruct (onSuccess o); reflexivity.
  - reflexivity.
Qed.

Lemma resume_blockHistory (o : GasEstimatorOptions) (p : Provider)
    (tx : option Transaction) (w : World) :
  blockHistory (state (fst (resume o p tx w)))
  = blockHistory (state (fst (cycle o p tx w))).
Proof.
  unfold resume, Exn.try_finally, Exn.try_catch.
  destruct (cycle o p tx w) as [w' [u|message]]; simpl.
  - reflexivity.
  - unfold onFailure, Exn.bind, notify. simpl.
    destruct (onError o); reflexivity.
Qed.

Lemma begin_blockHistory (o : GasEstimatorOptions) (w : World) :
  blockHistory (state (fst (begin o w))) = blockHistory (state w).
Proof. unfold begin. destruct (provider o); reflexivity. Qed.

Lemma reachable_callCompleted (o : GasEstimatorOptions) (p : Provider)
    (tx : option Transaction) (e : Engine) :
  reachable e -> provider o = Some p -> reachable (callCompleted o p tx e).
Proof.
  intros Hreach Hp.
  apply reachable_step
    with (e := {| world := fst (begin o (world e));
                  begun := S (begun e);
                  in_flight := S (in_flight e) |}).
  - apply reachable_step with (e := e); [exact Hreach|].
    exact (call_begins o p e Hp).
  - exact (call_completes o p tx
             {| world := fst (begin o (world e));
                begun := S (begun e);
                in_flight := S (in_flight e) |}
             (Nat.lt_0_succ _)).
Qed.

(** X6. However calls begin and complete, the block history never holds
    more than 100 blocks, and every block in it carries a base fee. *)
Theorem block_history_bounded (e : Engine) :
  reachable e ->
  (List.length (blockHistory (state (world e))) <= 100)%nat
  /\ Forall (fun b => baseFeePerGas b <> None)
       (blockHistory (state (world e))).
Proof.
  induction 1 as [|e e' Hreach IH Hstep].
  - simpl. split; [lia | constructor].
  - destruct IH as (Hlen & Hfee).
    destruct Hstep as [o e Hp | o p e Hp | o p tx e Hpos]; simpl.
    + rewrite begin_blockHistory. split; assumption.
    + rewrite begin_blockHistory. split; assumption.
    + rewrite resume_blockHistory, cycle_blockHistory.
      destruct (getBlock p Latest) as [[cur|]|msg]; try (split; assumption).
      split.
      * apply firstn_le_length.
      * apply Forall_firstn, Forall_app. split; [|exact Hfee].
        apply validBlocks_carry_fee.
Qed.

(** Six calls on the steady chain, each completed before the next, fetch
    120 blocks; 100 are kept. *)
Lemma block_history_bounded_witness :
  let o := optionsWith (steadyProvider 7) in
  let call := callCompleted o (steadyProvider 7) None in
  let e := call (call (call (call (call (call mounted))))) in
  List.length (blockHistory (state (world e))) = 100%nat
  /\ (List.length (blockHistory (state (world e))) <= 100)%nat
  /\ Forall (fun b => baseFeePerGas b <> None)
       (blockHistory (state (world e))).
Proof.
  split; [reflexivity|].
  apply block_history_bounded.
  repeat (apply reachable_callCompleted; [|reflexivity]).
  apply reachable_mounted.
Defined.

(** X7. The fetched blocks are merged into the history as soon as the
    latest block is there, before the fees are computed: they are merged
    by a cycle that succeeds and by one that fails later alike, newest
    first and cut at 100; a cycle whose latest-block fetch fails or finds
    no block leaves the history alone. *)
Theorem block_history_merge (o : GasEstimatorOptions) (p : Provider)
    (tx : option Transaction) (w : World) :
  provider o = Some p ->
  blockHistory (state (after o tx w))
  = match getBlock p Latest with
    | Fulfilled (Some cur) =>
        firstn 100
          (validBlocks (fetchHistorical p (number cur) (historicalBlocks o))
           ++ blockHistory (state w))
    | _ => blockHistory (state w)
    end.
Proof.
  intros Hp.
  rewrite (estimateGas_begin_resume o p tx w Hp).
  rewrite resume_blockHistory, cycle_blockHistory, begin_blockHistory.
  reflexivity.
Qed.

(** A bump too large for [BigNumber.from] fails the cycle after the 20
    blocks fetched were merged. *)
Lemma block_history_merge_witness :
  let p := steadyProvider 7 in
  let o := {| provider := Some p; refreshInterval := 15000;
              historicalBlocks := 20; priorityFeeBump := 9007199254740991;
              onError := true; onSuccess := true |} in
  error (state (after o None freshWorld)) = Some "overflow"
  /\ estimation (state (after o None freshWorld)) = None
  /\ List.length (blockHistory (state (after o None freshWorld))) = 20%nat
  /\ blockHistory (state (after o None freshWorld))
     = match getBlock p Latest with
       | Fulfilled (Some cur) =>
           firstn 100
             (validBlocks (fetchHistorical p (number cur) (historicalBlocks o))
              ++ blockHistory (state freshWorld))
       | _ => blockHistory (state freshWorld)
       end.
Proof.
  split; [reflexivity|]. split; [reflexivity|]. split; [reflexivity|].
  exact (block_history_merge
           {| provider := Some (steadyProvider 7); refreshInterval := 15000;
              historicalBlocks := 20; priorityFeeBump := 9007199254740991;
              onError := true; onSuccess := true |}
           (steadyProvider 7) None freshWorld eq_refl).
Defined.

(** *** Signs *)

Lemma sample_nonnegative (p : Provider) (n : Z) (count : nat) :
  (forall tag b fee,
      getBlock p tag = Fulfilled (Some b) ->
      baseFeePerGas b = Some fee -> 0 <= fee) ->
  Forall (fun fee => 0 <= fee) (sampleOfFetches p n count).
Proof.
  intros Hfees. apply Forall_forall. intros fee Hin.
  unfold sampleOfFetches in Hin. apply in_flat_map in Hin.
  destruct Hin as (i & _ & Hin). unfold contribution in Hin.
  destruct (getBlock p (Number (n - Z.of_nat i))) as [[b|]|msg] eqn:Hget;
    try contradiction.
  destruct (baseFeePerGas b) as [f|] eqn:Hf; try contradiction.
  destruct (f =? 0); [contradiction|].
  destruct Hin as [Heq|[]]. subst f. exact (Hfees _ _ _ Hget Hf).
Qed.

Lemma nth_nonnegative (l : list Z) (i : nat) (d : Z) :
  Forall (fun x => 0 <= x) l -> 0 <= d -> 0 <= nth i l d.
Proof.
  intros Hl Hd. destruct (nth_in_or_default i l d) as [Hin|Heq].
  - rewrite Forall_forall in Hl. exact (Hl _ Hin).
  - rewrite Heq. exact Hd.
Qed.

(** X8. When the provider hands out no negative base fee and no negative
    gas amount, and the priority fee bump is not negative, every amount in
    the snapshot of a successful cycle is zero or more. *)
Theorem snapshot_nonnegative (o : GasEstimatorOptions) (p : Provider)
    (tx : option Transaction) (w : World) :
  provider o = Some p ->
  (forall tag b fee,
      getBlock p tag = Fulfilled (Some b) ->
      baseFeePerGas b = Some fee -> 0 <= fee) ->
  (forall t g, provider_estimateGas p t = Fulfilled g -> 0 <= g) ->
  0 <= priorityFeeBump o ->
  error (state (after o tx w)) = None ->
  exists est,
    estimation (state (after o tx w)) = Some est
    /\ 0 <= baseFee est
    /\ 0 <= maxPriorityFeePerGas est
    /\ maxPriorityFeePerGas est <= maxFeePerGas est
    /\ 0 <= gasLimit est
    /\ 0 <= estimatedCost est
    /\ 0 <= low (confidence est)
    /\ 0 <= medium (confidence est)
    /\ 0 <= high (confidence est)
    /\ 0 <= average (historicalTrends est)
    /\ 0 <= median (historicalTrends est)
    /\ 0 <= percentile90 (historicalTrends est).
Proof.
  intros Hp Hfees Hgas Hbump Hok.
  destruct (success_inversion o tx w Hok) as (p' & cur & bump & Hp' & Hcur & Hb).
  rewrite Hp in Hp'. inversion Hp'; subst p'.
  destruct (estimateGas_succeeds o p tx w cur bump Hp Hcur Hb) as (Hest & _).
  eexists. split; [exact Hest|].
  apply from_value in Hb. subst bump.
  assert (Hbase : 0 <= baseFeeOrZero cur).
  { unfold baseFeeOrZero. destruct (baseFeePerGas cur) as [fee|] eqn:Hfee.
    - exact (Hfees _ _ _ Hcur Hfee).
    - lia. }
  assert (Hlimit : 0 <= gasLimitOf p tx).
  { unfold gasLimitOf. destruct tx as [t|]; [|lia].
    destruct (provider_estimateGas p t) as [g|msg] eqn:Hg; [|lia].
    exact (Hgas _ _ Hg). }
  set (fees := seedIfEmpty
                 (sampleOfFetches p (number cur) (historicalBlocks o))
                 (baseFeeOrZero cur)).
  assert (Hsample : Forall (fun fee => 0 <= fee) fees).
  { subst fees.
    pose proof (sample_nonnegative p (number cur) (historicalBlocks o) Hfees)
      as Hs.
    destruct (sampleOfFetches p (number cur) (historicalBlocks o)); simpl.
    - constructor; [exact Hbase | constructor].
    - exact Hs. }
  assert (Hsorted : Forall (fun fee => 0 <= fee) (sortedFees fees)).
  { apply Forall_forall. intros x Hx.
    destruct (sortedFees_ascending fees) as (_ & Hperm).
    apply Permutation_sym in Hperm.
    apply (Permutation_in _ Hperm) in Hx.
    rewrite Forall_forall in Hsample. exact (Hsample _ Hx). }
  simpl. unfold index_or, BigNumber.mul, BigNumber.add.
  repeat split; try lia; try (apply nth_nonnegative; assumption);
    try (apply Z.mul_nonneg_nonneg; lia).
  unfold averageOf, BigNumber.div.
  {
    destruct (0 <? List.length fees)%nat eqn:Hlen; [|exact Hbase].
    apply Nat.ltb_lt in Hlen.
    apply Z.quot_pos; [|lia].
    destruct (sum_between 0 (sum fees) fees) as (Hlo & _); [|lia].
    apply Forall_forall. intros x Hx. split.
    + rewrite Forall_forall in Hsample. exact (Hsample _ Hx).
    + clear - Hx Hsample. unfold sum.
      revert Hx. induction Hsample as [|y rest Hy Hrest IH]; intros Hx.
      * contradiction.
      * cbn [fold_left]. rewrite sum_from. unfold BigNumber.add at 1.
        assert (0 <= fold_left (fun a fee => BigNumber.add a fee) rest 0).
        { clear - Hrest. induction Hrest as [|z r Hz Hr IHr].
          - simpl. lia.
          - cbn [fold_left]. rewrite sum_from.
            unfold BigNumber.add at 1. lia. }
        destruct Hx as [Heq|Hin]; [subst; lia|].
        specialize (IH Hin). lia. }
Qed.

Lemma snapshot_nonnegative_witness :
  exists est,
    estimation (state (after (optionsWith (steadyProvider 7)) None freshWorld))
    = Some est
    /\ 0 <= baseFee est
    /\ 0 <= maxPriorityFeePerGas est
    /\ maxPriorityFeePerGas est <= maxFeePerGas est
    /\ 0 <= gasLimit est
    /\ 0 <= estimatedCost est
    /\ 0 <= low (confidence est)
    /\ 0 <= medium (confidence est)
    /\ 0 <= high (confidence est)
    /\ 0 <= average (historicalTrends est)
    /\ 0 <= median (historicalTrends est)
    /\ 0 <= percentile90 (historicalTrends est).
Proof.
  apply (snapshot_nonnegative (optionsWith (steadyProvider 7))
           (steadyProvider 7) None freshWorld eq_refl).
  - intros tag b fee Hget Hfee.
    destruct tag; simpl in Hget; inversion Hget; subst b; simpl in Hfee;
      inversion Hfee; lia.
  - intros t g Hg. simpl in Hg. inversion Hg. lia.
  - simpl. lia.
  - reflexivity.
Defined.

End GasEstimatorMore.

(** ** More on the transaction monitor *)

Module TransactionStatusMore.
Import TransactionStatus TransactionStatusFacts.

(** The six ways through [getTransactionStatus]. *)
Ltac poll_branches p txHash :=
  run_poll;
  destruct (getTransaction p txHash) as [[?tx|]|?message]; simpl;
  [ destruct (getTransactionReceipt p txHash) as [[?receipt|]|?message]; simpl;
    [ destruct (getBlockNumber p) as [?currentBlock|?message]; simpl | | ]
  | | ].

(** *** The history *)

(** X9. Every poll made with a provider and a hash appends one entry to
    the history, whichever way it ends: the entry holds the status the
    poll leaves and the time of the poll, and the entries before stay. *)
Theorem history_grows_by_one (o : TransactionStatusOptions) (p : Provider)
    (txHash : string) (w : World) :
  txHash <> "" ->
  let info := transactionInfo (poll o (Some p) txHash w) in
  history info
  = history (transactionInfo w)
    ++ [{| entry_status := status info; timestamp := now p |}].
Proof.
  intros Hhash info. subst info.
  rewrite (poll_transactionInfo o p txHash w Hhash).
  unfold getTransactionStatus. rewrite (no_hash _ Hhash).
  poll_branches p txHash; reflexivity.
Qed.

Lemma history_grows_by_one_witness :
  let w := poll defaults (Some waitingProvider) "0xdef" (mounted defaults) in
  history (transactionInfo (poll defaults (Some downProvider) "0xdef" w))
  = history (transactionInfo w)
    ++ [{| entry_status := Error; timestamp := 0 |}].
Proof.
  exact (history_grows_by_one defaults downProvider "0xdef"
           (poll defaults (Some waitingProvider) "0xdef" (mounted defaults))
           ltac:(discriminate)).
Defined.

Lemma poll_last_entry (o : TransactionStatusOptions)
    (provider : option Provider) (txHash : string) (w : World) :
  last (map entry_status (history (transactionInfo w))) Pending
  = status (transactionInfo w) ->
  last (map entry_status
          (history (transactionInfo (poll o provider txHash w)))) Pending
  = status (transactionInfo (poll o provider txHash w)).
Proof.
  intros Hw. unfold poll.
  destruct provider as [p|]; [|exact Hw].
  destruct (String.eqb txHash "") eqn:Hhash; [exact Hw|].
  rewrite reconcile_transactionInfo.
  unfold getTransactionStatus. rewrite Hhash.
  poll_branches p txHash; unfold withEntry; rewrite map_app; cbn [map];
    rewrite last_last; reflexivity.
Qed.

(** X10. In every state the monitor reaches, the status is the one of the
    last entry of the history, and [pending] while the history is empty. *)
Theorem status_is_last_entry (o : TransactionStatusOptions) (txHash : string)
    (w : World) :
  reachable o txHash w ->
  last (map entry_status (history (transactionInfo w))) Pending
  = status (transactionInfo w).
Proof.
  induction 1 as [|w provider Hreach IH].
  - reflexivity.
  - apply poll_last_entry. exact IH.
Qed.

Lemma status_is_last_entry_witness :
  let w := poll defaults (Some (minedProvider 0 10 0)) "0xdef"
             (poll defaults (Some waitingProvider) "0xdef"
                (mounted defaults)) in
  last (map entry_status (history (transactionInfo w))) Pending
  = status (transactionInfo w).
Proof.
  apply (status_is_last_entry defaults "0xdef").
  apply reachable_poll, reachable_poll, reachable_mounted.
Defined.


(** *** The notifications *)

Lemma statusChangeCalls_app (l l' : list Call) :
  statusChangeCalls (l ++ l') = statusChangeCalls l ++ statusChangeCalls l'.
Proof.
  induction l as [|c rest IH]; simpl.
  - reflexivity.
  - destruct c; simpl; rewrite IH; reflexivity.
Qed.

Lemma errorCalls_app (l l' : list Call) :
  errorCalls (l ++ l') = errorCalls l ++ errorCalls l'.
Proof.
  induction l as [|c rest IH]; simpl.
  - reflexivity.
  - destruct c; simpl; rewrite IH; reflexivity.
Qed.

Lemma getTransactionStatus_prevStatusRef (o : TransactionStatusOptions)
    (provider : option Provider) (txHash : string) (w : World) :
  prevStatusRef (fst (getTransactionStatus o provider txHash w))
  = prevStatusRef w.
Proof.
  unfold getTransactionStatus.
  destruct provider as [p|]; [|reflexivity].
  destruct (String.eqb txHash ""); [reflexivity|].
  poll_branches p txHash; reflexivity.
Qed.

(** After the effect the ref holds the status. *)
Lemma reconcile_prevStatusRef (o : TransactionStatusOptions) (w : World) :
  prevStatusRef (reconcile o w) = status (transactionInfo w).
Proof.
  unfold reconcile, notify, setPrevStatusRef.
  destruct (status (transactionInfo w)) eqn:Hs, (prevStatusRef w) eqn:Hr,
    (onStatusChange o), (onConfirmation o), (onError o); simpl;
    try destruct (error (transactionInfo w)) as [message|]; simpl;
    try destruct (negb (String.eqb message "")); simpl;
    try rewrite Hr; reflexivity.
Qed.

Lemma reconcile_statusChanges (o : TransactionStatusOptions) (w : World) :
  statusChangeCalls (calls (reconcile o w))
  = statusChangeCalls (calls w)
    ++ (if Status_eqb (status (transactionInfo w)) (prevStatusRef w)
        then []
        else if onStatusChange o
             then [(status (transactionInfo w), prevStatusRef w)]
             else []).
Proof.
  unfold reconcile, notify, setPrevStatusRef.
  destruct (status (transactionInfo w)), (prevStatusRef w),
    (onStatusChange o), (onConfirmation o), (onError o); simpl;
    try destruct (error (transactionInfo w)) as [message|]; simpl;
    try destruct (negb (String.eqb message "")); simpl;
    rewrite ?statusChangeCalls_app; simpl; rewrite ?app_nil_r; reflexivity.
Qed.

Lemma reconcile_errorCalls (o : TransactionStatusOptions) (w : World) :
  errorCalls (calls (reconcile o w))
  = errorCalls (calls w)
    ++ (if Status_eqb (status (transactionInfo w)) Error && onError o
        then match error (transactionInfo w) with
             | Some message =>
                 if String.eqb message "" then [] else [message]
             | None => []
             end
        else []).
Proof.
  unfold reconcile, notify, setPrevStatusRef.
  destruct (status (transactionInfo w)), (prevStatusRef w),
    (onStatusChange o), (onConfirmation o), (onError o); simpl;
    try destruct (error (transactionInfo w)) as [message|]; simpl;
    try destruct (String.eqb message ""); simpl;
    rewrite ?errorCalls_app; simpl; rewrite ?app_nil_r; reflexivity.
Qed.

(** In every state the monitor reaches the ref holds the status. *)
Lemma ref_holds_status (o : TransactionStatusOptions) (txHash : string)
    (w : World) :
  reachable o txHash w -> prevStatusRef w = status (transactionInfo w).
Proof.
  induction 1 as [|w provider Hreach IH].
  - reflexivity.
  - unfold poll. destruct provider as [p|]; [|exact IH].
    destruct (String.eqb txHash ""); [exact IH|].
    rewrite reconcile_prevStatusRef, reconcile_transactionInfo. reflexivity.
Qed.

(** X11. With [onStatusChange] registered, a poll calls it when the status
    it leaves differs from the status of the poll before, handing it the
    new and the previous status, and does not call it when the status is the
    same. *)
Theorem status_change_reported (o : TransactionStatusOptions)
    (txHash : string) (w : World) (p : Provider) :
  reachable o txHash w ->
  txHash <> "" ->
  onStatusChange o = true ->
  let w' := poll o (Some p) txHash w in
  statusChangeCalls (calls w')
  = statusChangeCalls (calls w)
    ++ (if Status_eqb (status (transactionInfo w'))
                      (status (transactionInfo w))
        then []
        else [(status (transactionInfo w'), status (transactionInfo w))]).
Proof.
  intros Hreach Hhash Hreg w'. subst w'.
  rewrite (poll_transactionInfo o p txHash w Hhash).
  unfold poll. rewrite (no_hash _ Hhash).
  rewrite reconcile_statusChanges, getTransactionStatus_calls,
    getTransactionStatus_prevStatusRef, Hreg.
  rewrite (ref_holds_status o txHash w Hreach). reflexivity.
Qed.

Lemma status_change_reported_witness :
  let w := poll defaults (Some waitingProvider) "0xdef" (mounted defaults) in
  statusChangeCalls
    (calls (poll defaults (Some (minedProvider 1 10 0)) "0xdef" w))
  = statusChangeCalls (calls w) ++ [(Confirmed, Pending)].
Proof.
  exact (status_change_reported defaults "0xdef"
           (poll defaults (Some waitingProvider) "0xdef" (mounted defaults))
           (minedProvider 1 10 0)
           (reachable_poll _ _ _ _ (reachable_mounted _ _))
           ltac:(discriminate) eq_refl).
Defined.

(** X12. With [onError] registered, a poll calls it exactly when the poll
    ends in the status [error] with a message that is not empty, and hands
    it that message. *)
Theorem error_reported (o : TransactionStatusOptions) (p : Provider)
    (txHash : string) (w : World) :
  txHash <> "" ->
  onError o = true ->
  let w' := poll o (Some p) txHash w in
  errorCalls (calls w')
  = errorCalls (calls w)
    ++ match status (transactionInfo w'), error (transactionInfo w') with
       | Error, Some message =>
           if String.eqb message "" then [] else [message]
       | _, _ => []
       end.
Proof.
  intros Hhash Hreg w'. subst w'.
  rewrite (poll_transactionInfo o p txHash w Hhash).
  unfold poll. rewrite (no_hash _ Hhash).
  rewrite reconcile_errorCalls, getTransactionStatus_calls, Hreg.
  rewrite andb_true_r.
  destruct (status (transactionInfo _)); reflexivity.
Qed.

Lemma error_reported_witness :
  errorCalls (calls (poll defaults (Some downProvider) "0xdef"
                       (mounted defaults)))
  = ["network error"].
Proof.
  exact (error_reported defaults downProvider "0xdef" (mounted defaults)
           ltac:(discriminate) eq_refl).
Defined.


(** *** The polling interval *)

Lemma poll_interval_cases (o : TransactionStatusOptions)
    (provider : option Provider) (txHash : string) (w : World) :
  let next := pollingInterval (poll o provider txHash w) in
  next = pollingInterval w
  \/ next = Qmin (pollingInterval w * (3 # 2)) 30000
  \/ next = initialPollingInterval o.
Proof.
  unfold poll. destruct provider as [p|]; [|left; reflexivity].
  destruct (String.eqb txHash "") eqn:Hhash; [left; reflexivity|].
  rewrite reconcile_pollingInterval.
  unfold getTransactionStatus. rewrite Hhash.
  poll_branches p txHash; try (left; reflexivity);
    destruct (getNetworkCongestion p); auto.
Qed.

(** X13. With an initial interval between 0 and 30000, the polling
    interval stays between the initial interval and 30000 in every state
    the monitor reaches. *)
Theorem interval_within_bounds (o : TransactionStatusOptions)
    (txHash : string) (w : World) :
  (0 <= initialPollingInterval o)%Q ->
  (initialPollingInterval o <= 30000)%Q ->
  reachable o txHash w ->
  (initialPollingInterval o <= pollingInterval w)%Q
  /\ (pollingInterval w <= 30000)%Q.
Proof.
  intros Hpos Hcap. induction 1 as [|w provider Hreach IH].
  - simpl. split; [apply Qle_refl | exact Hcap].
  - destruct IH as (Hlo & Hhi).
    destruct (poll_interval_cases o provider txHash w) as [H|[H|H]];
      rewrite H.
    + split; assumption.
    + split.
      * apply Q.min_glb; [lra | exact Hcap].
      * apply Q.le_min_r.
    + split; [apply Qle_refl | exact Hcap].
Qed.

(** Five polls under congestion: 5000 has grown to the cap. *)
Lemma interval_within_bounds_witness :
  let busy := minedProvider 1 10 150000000000 in
  let w := polls defaults "0xabc" [busy; busy; busy; busy; busy]
             (mounted defaults) in
  (pollingInterval w == 30000)%Q
  /\ (initialPollingInterval defaults <= pollingInterval w)%Q
  /\ (pollingInterval w <= 30000)%Q.
Proof.
  split; [vm_compute; reflexivity|].
  apply (interval_within_bounds defaults "0xabc").
  - vm_compute. discriminate.
  - vm_compute. discriminate.
  - unfold polls. cbn [fold_left].
    repeat apply reachable_poll. apply reachable_mounted.
Defined.

(** X14. A poll that ends in [not found] or in [error] leaves the polling
    interval as it was: the interval is adjusted only by a poll that found
    the transaction and did not throw. *)
Theorem interval_kept_on_failure (o : TransactionStatusOptions)
    (provider : option Provider) (txHash : string) (w : World) :
  let w' := poll o provider txHash w in
  status (transactionInfo w') = NotFound
  \/ status (transactionInfo w') = Error ->
  pollingInterval w' = pollingInterval w.
Proof.
  unfold poll. destruct provider as [p|]; [|reflexivity].
  destruct (String.eqb txHash "") eqn:Hhash; [reflexivity|].
  rewrite reconcile_pollingInterval, reconcile_transactionInfo.
  unfold getTransactionStatus. rewrite Hhash.
  poll_branches p txHash; try reflexivity; intros Hs; exfalso.
  - unfold newStatus in Hs.
    destruct (receipt_status receipt =? 1);
      [destruct (requiredConfirmations o <=? _)|];
      destruct Hs as [Hs|Hs]; discriminate Hs.
  - destruct Hs as [Hs|Hs]; discriminate Hs.
Qed.

Lemma interval_kept_on_failure_witness :
  let busy := minedProvider 1 10 150000000000 in
  let w := poll defaults (Some busy) "0xabc" (mounted defaults) in
  pollingInterval (poll defaults (Some downProvider) "0xabc" w)
  = pollingInterval w.
Proof.
  apply (interval_kept_on_failure defaults (Some downProvider) "0xabc"
           (poll defaults (Some (minedProvider 1 10 150000000000)) "0xabc"
              (mounted defaults))).
  right. reflexivity.
Defined.


(** *** The mempool position *)

Lemma indexOf_range (l : list string) (x : string) :
  -1 <= indexOf l x < Z.of_nat (List.length l).
Proof.
  induction l as [|y rest IH]; cbn [indexOf List.length].
  - lia.
  - destruct (String.eqb y x); [lia|].
    destruct (indexOf rest x =? -1) eqn:E; lia.
Qed.

Lemma indexOf_absent (l : list string) (x : string) :
  indexOf l x = -1 <-> ~ In x l.
Proof.
  induction l as [|y rest IH]; cbn [indexOf].
  - split; [intros _ [] | reflexivity].
  - destruct (String.eqb_spec y x) as [Heq|Hne].
    + split; [intros H; discriminate H|].
      intros H. exfalso. apply H. left. exact Heq.
    + pose proof (indexOf_range rest x) as Hr.
      destruct (indexOf rest x =? -1) eqn:E.
      * apply Z.eqb_eq in E. split; [|reflexivity].
        intros _ [Hin|Hin]; [contradiction|]. apply IH in E. contradiction.
      * apply Z.eqb_neq in E. split; [lia|].
        intros H. exfalso. apply E, IH. intros Hin. apply H. right. exact Hin.
Qed.

Lemma indexOf_first (l : list string) (x : string) :
  indexOf l x <> -1 ->
  nth_error l (Z.to_nat (indexOf l x)) = Some x
  /\ ~ In x (firstn (Z.to_nat (indexOf l x)) l).
Proof.
  induction l as [|y rest IH]; cbn [indexOf].
  - intros H. contradiction.
  - destruct (String.eqb_spec y x) as [Heq|Hne].
    + intros _. simpl. subst y. split; [reflexivity | intros []].
    + pose proof (indexOf_range rest x) as Hr.
      destruct (indexOf rest x =? -1) eqn:E; [intros H; contradiction|].
      apply Z.eqb_neq in E. intros _.
      destruct (IH E) as (Hnth & Hfirst).
      replace (Z.to_nat (indexOf rest x + 1))
        with (S (Z.to_nat (indexOf rest x))) by lia.
      simpl. split; [exact Hnth|].
      intros [Hin|Hin]; contradiction.
Qed.

(** X15. Given the pending block, the mempool position is the place of the
    first occurrence of the hash among its transactions, counted from 1,
    and null when the hash is not among them. *)
Theorem mempool_position_counts_from_one (p : Provider) (txHash : string)
    (transactions : list string) :
  send_pending p = Fulfilled (Some transactions) ->
  match getMempoolPosition p txHash with
  | Some position =>
      1 <= position <= Z.of_nat (List.length transactions)
      /\ nth_error transactions (Z.to_nat (position - 1)) = Some txHash
      /\ ~ In txHash (firstn (Z.to_nat (position - 1)) transactions)
  | None => ~ In txHash transactions
  end.
Proof.
  intros Hsend. unfold getMempoolPosition. rewrite Hsend.
  pose proof (indexOf_range transactions txHash) as Hr.
  destruct (indexOf transactions txHash =? -1) eqn:E.
  - apply Z.eqb_eq in E. apply indexOf_absent. exact E.
  - apply Z.eqb_neq in E.
    destruct (indexOf_first transactions txHash E) as (Hnth & Hfirst).
    replace (indexOf transactions txHash + 1 - 1)
      with (indexOf transactions txHash) by lia.
    split; [lia|]. split; assumption.
Qed.

Lemma mempool_position_counts_from_one_witness :
  match getMempoolPosition waitingProvider "0xdef" with
  | Some position =>
      1 <= position <= 2
      /\ nth_error ["0xabc"; "0xdef"] (Z.to_nat (position - 1)) = Some "0xdef"
      /\ ~ In "0xdef" (firstn (Z.to_nat (position - 1)) ["0xabc"; "0xdef"])
  | None => ~ In "0xdef" ["0xabc"; "0xdef"]
  end.
Proof.
  exact (mempool_position_counts_from_one waitingProvider "0xdef"
           ["0xabc"; "0xdef"] eq_refl).
Defined.

(** *** The gas price recommendations *)

Lemma formatUnits_gwei_le (a b : Z) :
  a <= b -> (formatUnits_gwei a <= formatUnits_gwei b)%Q.
Proof. intros H. unfold formatUnits_gwei, Qle. simpl. lia. Qed.

(** X16. When the provider's max fee is not negative, the recommendations
    that come back are in order: slow is at most standard and standard at
    most fast, also after the division that cuts slow and fast to whole
    wei, and also when there is no max fee and all three are zero. *)
Theorem recommendations_ordered (p : Provider)
    (recommendations : GasPriceRecommendations) :
  (forall feeData fee,
      getFeeData p ForRecommendations = Fulfilled feeData ->
      fee_maxFeePerGas feeData = Some fee -> 0 <= fee) ->
  getGasPriceRecommendations p = Some recommendations ->
  (slow recommendations <= standard recommendations)%Q
  /\ (standard recommendations <= fast recommendations)%Q.
Proof.
  intros Hfee. unfold getGasPriceRecommendations.
  destruct (getFeeData p ForRecommendations) as [feeData|message] eqn:Hget;
    [|intros H; discriminate H].
  destruct (fee_maxFeePerGas feeData) as [fee|] eqn:Hmax;
    intros H; inversion H; subst recommendations; simpl.
  - specialize (Hfee feeData fee eq_refl Hmax).
    unfold BigNumber.div, BigNumber.mul.
    split; apply formatUnits_gwei_le.
    + apply Z.quot_le_upper_bound; lia.
    + apply Z.quot_le_lower_bound; lia.
  - split; apply Qle_refl.
Qed.

Lemma recommendations_ordered_witness :
  exists recommendations,
    getGasPriceRecommendations waitingProvider = Some recommendations
    /\ (slow recommendations <= standard recommendations)%Q
    /\ (standard recommendations <= fast recommendations)%Q.
Proof.
  eexists. split; [reflexivity|].
  apply (recommendations_ordered waitingProvider).
  - intros feeData fee Hget Hmax. simpl in Hget. inversion Hget; subst feeData.
    simpl in Hmax. inversion Hmax. lia.
  - reflexivity.
Defined.


(** *** What the fields say together *)

Lemma poll_fields (o : TransactionStatusOptions) (provider : option Provider)
    (txHash : string) (w : World) :
  let consistent info :=
    (mined (status info) ->
     gasUsed info <> None /\ effectiveGasPrice info <> None
     /\ error info = None)
    /\ (status info = NotFound -> error info = Some "Transaction not found")
    /\ (status info = Error -> error info <> None) in
  consistent (transactionInfo w) ->
  consistent (transactionInfo (poll o provider txHash w)).
Proof.
  intros consistent Hw. subst consistent. cbv beta in *. unfold poll.
  destruct provider as [p|]; [|exact Hw].
  destruct (String.eqb txHash "") eqn:Hhash; [exact Hw|].
  rewrite reconcile_transactionInfo.
  unfold getTransactionStatus. rewrite Hhash.
  poll_branches p txHash; unfold mined;
    repeat split; intros; try discriminate;
    repeat match goal with
           | H : _ \/ _ |- _ => destruct H
           end;
    try discriminate; try reflexivity.
  all: unfold newStatus in *;
    destruct (receipt_status receipt =? 1);
    try destruct (requiredConfirmations o <=? _); discriminate.
Qed.

(** X17. In every state the monitor reaches: under the statuses
    [confirming], [confirmed] and [failed] the gas used and the effective
    gas price are there and the error is null; under [not found] the error
    is "Transaction not found"; under [error] an error is recorded. *)
Theorem fields_match_status (o : TransactionStatusOptions) (txHash : string)
    (w : World) :
  reachable o txHash w ->
  let info := transactionInfo w in
  (mined (status info) ->
   gasUsed info <> None /\ effectiveGasPrice info <> None
   /\ error info = None)
  /\ (status info = NotFound -> error info = Some "Transaction not found")
  /\ (status info = Error -> error info <> None).
Proof.
  induction 1 as [|w provider Hreach IH].
  - simpl. unfold mined. repeat split; intros;
      repeat match goal with
             | Hs : _ \/ _ |- _ => destruct Hs
             end;
      discriminate.
  - exact (poll_fields o provider txHash w IH).
Qed.

Lemma fields_match_status_witness :
  let w := poll defaults (Some unawareProvider) "0xdef" (mounted defaults) in
  status (transactionInfo w) = NotFound
  /\ error (transactionInfo w) = Some "Transaction not found".
Proof.
  split; [reflexivity|].
  destruct (fields_match_status defaults "0xdef"
              (poll defaults (Some unawareProvider) "0xdef" (mounted defaults))
              (reachable_poll _ _ _ _ (reachable_mounted _ _)))
    as (_ & Hnot_found & _).
  exact (Hnot_found eq_refl).
Defined.

(** X18. A poll that finds no receipt clears nothing: it leaves the
    confirmations, the gas used and the effective gas price as they were,
    and an error recorded before is still recorded after it, so that a
    transaction seen pending after a poll that did not find it is shown
    pending with the error of that poll. *)
Theorem only_a_receipt_clears (o : TransactionStatusOptions)
    (provider : option Provider) (txHash : string) (w : World) :
  let info := transactionInfo w in
  let info' := transactionInfo (poll o provider txHash w) in
  ~ mined (status info') ->
  confirmations info' = confirmations info
  /\ gasUsed info' = gasUsed info
  /\ effectiveGasPrice info' = effectiveGasPrice info
  /\ (error info <> None -> error info' <> None).
Proof.
  cbv zeta. unfold poll.
  destruct provider as [p|];
    [|intros _; split; [|split; [|split]]; auto].
  destruct (String.eqb txHash "") eqn:Hhash;
    [intros _; split; [|split; [|split]]; auto|].
  rewrite reconcile_transactionInfo.
  unfold getTransactionStatus. rewrite Hhash.
  poll_branches p txHash; intros Hnot;
    try (split; [|split; [|split]]; auto; intros _ H; discriminate H).
  exfalso. apply Hnot. unfold mined, newStatus.
  destruct (receipt_status receipt =? 1);
    [destruct (requiredConfirmations o <=? _)|]; auto.
Qed.

(** Not found, then pending: the status is [pending] and the error is the
    one of the poll before. *)
Lemma only_a_receipt_clears_witness :
  let w := poll defaults (Some unawareProvider) "0xdef" (mounted defaults) in
  let w' := poll defaults (Some waitingProvider) "0xdef" w in
  status (transactionInfo w') = Pending
  /\ error (transactionInfo w') = Some "Transaction not found"
  /\ confirmations (transactionInfo w') = confirmations (transactionInfo w)
  /\ gasUsed (transactionInfo w') = gasUsed (transactionInfo w)
  /\ effectiveGasPrice (transactionInfo w')
     = effectiveGasPrice (transactionInfo w)
  /\ (error (transactionInfo w) <> None -> error (transactionInfo w') <> None).
Proof.
  split; [reflexivity|]. split; [reflexivity|].
  apply (only_a_receipt_clears defaults (Some waitingProvider) "0xdef"
           (poll defaults (Some unawareProvider) "0xdef" (mounted defaults))).
  unfold mined. vm_compute. intros [H|[H|H]]; discriminate H.
Defined.

(** *** Confirmations *)

(** X19. A receipt in a block at or below the current block counts at
    least one confirmation; when no more than one confirmation is asked
    for, as by default, such a receipt of status 1 is [confirmed] at once
    and the status [confirming] does not appear. *)
Theorem one_confirmation_is_enough (o : TransactionStatusOptions)
    (p : Provider) (txHash : string) (w : World) (tx : Transaction)
    (receipt : Receipt) (currentBlock : Z) :
  txHash <> "" ->
  getTransaction p txHash = Fulfilled (Some tx) ->
  getTransactionReceipt p txHash = Fulfilled (Some receipt) ->
  getBlockNumber p = Fulfilled currentBlock ->
  blockNumber receipt <= currentBlock ->
  requiredConfirmations o <= 1 ->
  let info := transactionInfo (poll o (Some p) txHash w) in
  1 <= confirmations info
  /\ status info <> Confirming
  /\ (receipt_status receipt = 1 -> status info = Confirmed).
Proof.
  intros Hhash Htx Hreceipt Hblock Hle Hreq info. subst info.
  rewrite (poll_transactionInfo o p txHash w Hhash).
  run_poll. rewrite (no_hash _ Hhash), Htx, Hreceipt, Hblock. simpl.
  unfold newStatus.
  destruct (receipt_status receipt =? 1) eqn:Hs;
    destruct (requiredConfirmations o <=? currentBlock - blockNumber receipt + 1)
      eqn:Hc;
    repeat split; intros; try discriminate; try reflexivity; lia.
Qed.

Lemma one_confirmation_is_enough_witness :
  let info := transactionInfo
                (poll defaults (Some (minedProvider 1 10 0)) "0xabc"
                   (mounted defaults)) in
  1 <= confirmations info
  /\ status info <> Confirming
  /\ (1 = 1 -> status info = Confirmed).
Proof.
  exact (one_confirmation_is_enough defaults (minedProvider 1 10 0) "0xabc"
           (mounted defaults) "tx"
           {| receipt_status := 1; blockNumber := 10;
              receipt_gasUsed := 21000;
              receipt_effectiveGasPrice := 1000000000 |} 10
           ltac:(discriminate) eq_refl eq_refl eq_refl
           ltac:(apply Z.le_refl) ltac:(apply Z.le_refl)).
Defined.

End TransactionStatusMore.

(** ** The wallet *)

Module WalletMultiChainFacts.
Import WalletMultiChain.

Lemma includes_In (chains : list Z) (chainId : Z) :
  includes chains chainId = true <-> In chainId chains.
Proof.
  unfold includes. rewrite existsb_exists. split.
  - intros (c & Hin & Heq). apply Z.eqb_eq in Heq. subst c. exact Hin.
  - intros Hin. exists chainId. split; [exact Hin | apply Z.eqb_refl].
Qed.

Ltac run_connect :=
  unfold connectWallet, Exn.try_catch, Exn.bind, getProvider, updateBalance,
    resetState, Exn.modify, Exn.await, Exn.ret, Exn.throw.

(** X20. A call of [connectWallet] that throws with a wallet installed
    leaves the hook disconnected, whatever it held before and whichever
    step failed: the chain is not supported, the user refuses, or the
    address or the balance cannot be read. Without a wallet installed it
    throws and the state is untouched. *)
Theorem failed_connection_disconnects (supportedChains : list Z)
    (ethereum : Ethereum) (s : WalletState) (message : string) :
  snd (connectWallet supportedChains ethereum s) = Throw message ->
  fst (connectWallet supportedChains ethereum s)
  = (if hasEthereum ethereum then disconnected else s).
Proof.
  run_connect.
  destruct (hasEthereum ethereum); simpl; [|reflexivity].
  destruct (provider s); simpl;
    destruct (getNetwork ethereum) as [chainId|m]; simpl; try reflexivity;
    destruct (includes supportedChains chainId); simpl; try reflexivity;
    destruct (requestAccounts ethereum) as [u|m]; simpl; try reflexivity;
    destruct (getAddress ethereum) as [address|m]; simpl; try reflexivity;
    destruct (String.eqb address ""); simpl;
    try (intros H; discriminate H);
    destruct (getBalance ethereum address) as [wei|m]; simpl;
    try reflexivity; intros H; discriminate H.
Qed.

(** Connected on chain 1, then a second call that the user refuses. *)
Lemma failed_connection_disconnects_witness :
  let s := fst (connectWallet [1; 137] mainnetWallet disconnected) in
  walletAddress s = Some "0xA11CE"
  /\ fst (connectWallet [1; 137] refusingWallet s) = disconnected.
Proof.
  split; [reflexivity|].
  exact (failed_connection_disconnects [1; 137] refusingWallet
           (fst (connectWallet [1; 137] mainnetWallet disconnected))
           "User rejected the request." eq_refl).
Defined.

(** X21. A call of [connectWallet] that returns has found a wallet on a
    supported chain: the state holds a provider, that chain, the address
    of the signer, and the balance of that address in ether, or no balance
    when the address is empty. *)
Theorem connection_is_on_a_supported_chain (supportedChains : list Z)
    (ethereum : Ethereum) (s : WalletState) (u : unit) :
  snd (connectWallet supportedChains ethereum s) = Normal u ->
  exists chainId address,
    getNetwork ethereum = Fulfilled chainId
    /\ In chainId supportedChains
    /\ getAddress ethereum = Fulfilled address
    /\ fst (connectWallet supportedChains ethereum s)
       = {| provider := Some windowEthereum;
            network := Some chainId;
            walletAddress := Some address;
            balance :=
              if String.eqb address "" then None
              else match getBalance ethereum address with
                   | Fulfilled wei => Some (formatEther wei)
                   | Rejected _ => None
                   end |}.
Proof.
  run_connect.
  destruct (hasEthereum ethereum); simpl; [|intros H; discriminate H].
  destruct (provider s) as [[]|]; simpl;
    destruct (getNetwork ethereum) as [chainId|m]; simpl;
    try (intros H; discriminate H);
    destruct (includes supportedChains chainId) eqn:Hin; simpl;
    try (intros H; discriminate H);
    destruct (requestAccounts ethereum) as [v|m]; simpl;
    try (intros H; discriminate H);
    destruct (getAddress ethereum) as [address|m]; simpl;
    try (intros H; discriminate H);
    apply includes_In in Hin;
    destruct (String.eqb address "") eqn:Hempty; simpl;
    try solve [intros _; exists chainId, address; rewrite Hempty;
               repeat split; auto];
    destruct (getBalance ethereum address) as [wei|m] eqn:Hbalance; simpl;
    try (intros H; discriminate H);
    intros _; exists chainId, address; rewrite Hempty, Hbalance;
    repeat split; auto.
Qed.

Lemma connection_is_on_a_supported_chain_witness :
  exists chainId address,
    getNetwork mainnetWallet = Fulfilled chainId
    /\ In chainId [1; 137]
    /\ getAddress mainnetWallet = Fulfilled address
    /\ fst (connectWallet [1; 137] mainnetWallet disconnected)
       = {| provider := Some windowEthereum;
            network := Some chainId;
            walletAddress := Some address;
            balance :=
              if String.eqb address "" then None
              else match getBalance mainnetWallet address with
                   | Fulfilled wei => Some (formatEther wei)
                   | Rejected _ => None
                   end |}.
Proof.
  exact (connection_is_on_a_supported_chain [1; 137] mainnetWallet
           disconnected tt eq_refl).
Defined.

End WalletMultiChainFacts.
